(** * video-bitrate-calculator: the parsing core of [lib.ts]

    A shallow embedding of the calculator's library module: the tokenizer
    and classifier ([parseInputString]), the resolver ([parseInput]), the
    unit parsers ([parseDuration], [parseFileSize], [parseBitRate]) and the
    three calculators, together with the parts of the JavaScript runtime
    they call (strings, regular expressions, IEEE-754 numbers).

    Conventions.
    - A JavaScript string is a [string]: a sequence of code units, here the
      code units below 256.
    - A JavaScript number is a primitive binary64 [float].
    - [undefined] and [null] are [None].
    - A [throw] is the [Throw] constructor of [result]; [try]/[catch] is a
      [match] on it. *)

From Stdlib Require Import ZArith Ascii String List Bool Lia.
From Stdlib Require Import PrimFloat FloatOps SpecFloat FloatAxioms.
From stdpp Require Import base option list gmap strings.

Local Open Scope string_scope.
Local Open Scope list_scope.

(** ** JavaScript strings *)

Module JsString.

(** [WhiteSpace] and [LineTerminator] code units below 256: TAB, LF, VT,
    FF, CR, SP and NBSP. *)
Definition isWhiteSpace (c : ascii) : bool :=
  let n := nat_of_ascii c in
  (((9 <=? n) && (n <=? 13)) || (n =? 32) || (n =? 160))%nat.

Definition isDigit (c : ascii) : bool :=
  let n := nat_of_ascii c in ((48 <=? n) && (n <=? 57))%nat.

Definition upperChar (c : ascii) : ascii :=
  let n := nat_of_ascii c in
  if ((97 <=? n) && (n <=? 122))%nat then ascii_of_nat (n - 32) else c.

Definition lowerChar (c : ascii) : ascii :=
  let n := nat_of_ascii c in
  if ((65 <=? n) && (n <=? 90))%nat then ascii_of_nat (n + 32) else c.

Fixpoint map_chars (f : ascii -> ascii) (s : string) : string :=
  match s with
  | EmptyString => EmptyString
  | String c s' => String (f c) (map_chars f s')
  end.

(** [s.toUpperCase()] and [s.toLowerCase()] on the ASCII letters; the
    program applies them to regular-expression captures made of ASCII
    letters only. *)
Definition toUpperCase : string -> string := map_chars upperChar.
Definition toLowerCase : string -> string := map_chars lowerChar.

Definition isEmpty (s : string) : bool :=
  match s with EmptyString => true | _ => false end.

(** [s.split(sep)] for a separator of one code unit. *)
Fixpoint split (sep : ascii) (s : string) : list string :=
  match s with
  | EmptyString => [EmptyString]
  | String c s' =>
      if Ascii.eqb c sep then EmptyString :: split sep s'
      else match split sep s' with
           | h :: t => String c h :: t
           | [] => [String c EmptyString]
           end
  end.

Fixpoint trimStart (s : string) : string :=
  match s with
  | String c s' => if isWhiteSpace c then trimStart s' else s
  | EmptyString => EmptyString
  end.

Fixpoint trimEnd (s : string) : string :=
  match s with
  | EmptyString => EmptyString
  | String c s' =>
      let t := trimEnd s' in
      if isWhiteSpace c && isEmpty t then EmptyString else String c t
  end.

Definition trim (s : string) : string := trimEnd (trimStart s).

(** [s.startsWith(p)]; [stripPrefix] also returns what follows [p]. *)
Fixpoint stripPrefix (p s : string) : option string :=
  match p, s with
  | EmptyString, _ => Some s
  | String a p', String b s' =>
      if Ascii.eqb a b then stripPrefix p' s' else None
  | String _ _, EmptyString => None
  end.

Definition startsWith (p s : string) : bool :=
  match stripPrefix p s with Some _ => true | None => false end.

(** [s.includes(p)]. *)
Fixpoint includes (p s : string) : bool :=
  startsWith p s ||
  match s with
  | EmptyString => false
  | String _ s' => includes p s'
  end.

(** [s.replace(p, r)] with a string pattern: the first occurrence only. *)
Fixpoint replace (p r s : string) : string :=
  match stripPrefix p s with
  | Some rest => r +:+ rest
  | None =>
      match s with
      | EmptyString => EmptyString
      | String c s' => String c (replace p r s')
      end
  end.

(** [l.join(sep)]. *)
Fixpoint join (sep : string) (l : list string) : string :=
  match l with
  | [] => EmptyString
  | [x] => x
  | x :: rest => x +:+ sep +:+ join sep rest
  end.

(** Truthiness of a value of type [string | undefined]. *)
Definition truthy (o : option string) : bool :=
  match o with
  | Some s => negb (isEmpty s)
  | None => false
  end.

End JsString.

(** ** Regular expressions

    The fragment of the JavaScript pattern language that [lib.ts] uses,
    with the backtracking semantics of the language: alternatives are
    tried left to right, [?] and [\d+] are greedy, and an unanchored
    pattern is tried at every start position from the left. *)

Module RegExp.

Inductive regex : Type :=
| Bol                              (* ^ *)
| Eol                              (* $ *)
| Lit (s : string)                 (* literal characters *)
| Cls (cs : string)                (* [...] : one character of cs *)
| Digits                           (* \d+ *)
| Seq (r1 r2 : regex)
| Alt (r1 r2 : regex)              (* r1|r2 *)
| Opt (r : regex)                  (* (?:r)? *)
| Grp (i : nat) (r : regex).       (* the i-th capturing group *)

(** A match array: index 0 the whole match, index [i] the [i]-th group;
    a group that did not take part is absent ([undefined]). *)
Abbreviation captures := (gmap nat string).

Definition cont := nat -> string -> captures -> option captures.

Section Matcher.
(** The [i] flag. *)
Variable ignoreCase : bool.

Definition canon (c : ascii) : ascii :=
  if ignoreCase then JsString.upperChar c else c.

Definition sameChar (a b : ascii) : bool :=
  Ascii.eqb (canon a) (canon b).

Fixpoint matchLit (l s : string) : option string :=
  match l, s with
  | EmptyString, _ => Some s
  | String a l', String b s' =>
      if sameChar a b then matchLit l' s' else None
  | String _ _, EmptyString => None
  end.

Fixpoint inClass (cs : string) (c : ascii) : bool :=
  match cs with
  | EmptyString => false
  | String a cs' => sameChar a c || inClass cs' c
  end.

(** [\d+]: the longest run of digits first, then shorter ones. *)
Fixpoint matchDigits (k : cont) (pos : nat) (s : string) (c : captures)
  : option captures :=
  match s with
  | String a s' =>
      if JsString.isDigit a then
        match matchDigits k (S pos) s' c with
        | Some res => Some res
        | None => k (S pos) s' c
        end
      else None
  | EmptyString => None
  end.

Fixpoint rmatch (r : regex) (k : cont) (pos : nat) (s : string)
    (c : captures) : option captures :=
  match r with
  | Bol => if Nat.eqb pos 0 then k pos s c else None
  | Eol => if JsString.isEmpty s then k pos s c else None
  | Lit l =>
      match matchLit l s with
      | Some s' => k (pos + String.length l) s' c
      | None => None
      end
  | Cls cs =>
      match s with
      | String a s' => if inClass cs a then k (S pos) s' c else None
      | EmptyString => None
      end
  | Digits => matchDigits k pos s c
  | Seq r1 r2 => rmatch r1 (fun p s' c' => rmatch r2 k p s' c') pos s c
  | Alt r1 r2 =>
      match rmatch r1 k pos s c with
      | Some res => Some res
      | None => rmatch r2 k pos s c
      end
  | Opt r1 =>
      match rmatch r1 k pos s c with
      | Some res => Some res
      | None => k pos s c
      end
  | Grp i r1 =>
      rmatch r1
        (fun p s' c' => k p s' (<[i := String.substring 0 (p - pos) s]> c'))
        pos s c
  end.

(** The search loop of [RegExp.prototype.exec] without the [g] flag. *)
Fixpoint execFrom (r : regex) (pos : nat) (s : string) : option captures :=
  match rmatch r
          (fun p _ c => Some (<[0 := String.substring 0 (p - pos) s]> c))
          pos s ∅ with
  | Some res => Some res
  | None =>
      match s with
      | String _ s' => execFrom r (S pos) s'
      | EmptyString => None
      end
  end.

End Matcher.

(** [s.match(r)] for a pattern without the [g] flag. *)
Definition exec (ignoreCase : bool) (r : regex) (s : string)
  : option captures :=
  execFrom ignoreCase r 0 s.

(** [r.test(s)]. *)
Definition test (ignoreCase : bool) (r : regex) (s : string) : bool :=
  match exec ignoreCase r s with Some _ => true | None => false end.

(** A sequence [r1 r2 ... rn] and an alternation [r1|r2|...|rn]. *)
Fixpoint seqs (l : list regex) : regex :=
  match l with
  | [] => Lit EmptyString
  | [r] => r
  | r :: l' => Seq r (seqs l')
  end.

Fixpoint alts (l : list regex) : regex :=
  match l with
  | [] => Cls EmptyString
  | [r] => r
  | r :: l' => Alt r (alts l')
  end.

End RegExp.

(** ** JavaScript numbers

    Numbers are binary64 floats. Arithmetic and comparisons are the
    primitive operations; the conversions between numbers and strings
    ([Number], [parseFloat], [parseInt], [toPrecision], [toString]) and
    [Math.floor] and [%] are computed on the exact value of the float, as
    ECMAScript defines them. *)

Module JsNumber.

Local Open Scope Z_scope.

(** Truthiness of a number: [0], [-0] and [NaN] are falsy. *)
Definition truthy (x : float) : bool := negb (is_zero x || is_nan x).

(** [x || 0] on numbers. *)
Definition orZero (x : float) : float := if truthy x then x else zero.

Definition negIf (s : bool) (x : float) : float :=
  if s then PrimFloat.opp x else x.

(** The number nearest to an integer [z >= 0] (ties to even). *)
Definition ofZ (z : Z) : float :=
  SF2Prim (binary_normalize prec emax z 0 false).

(** The number nearest to the rational [n / d], for [n >= 0], [d > 0]. *)
Definition ofRatio (n d : Z) : float :=
  match n, d with
  | Zpos pn, Zpos pd =>
      SF2Prim (SFdiv prec emax (S754_finite false pn 0)
                               (S754_finite false pd 0))
  | Z0, Zpos _ => zero
  | _, _ => nan
  end.

(** The number nearest to [m * 10^e], for [m >= 0]. *)
Definition ofDecimal (m e : Z) : float :=
  if 0 <=? e then ofZ (m * 10 ^ e) else ofRatio m (10 ^ (- e)).

(** The exact value of a positive finite float as a fraction. *)
Definition fraction (m : positive) (e : Z) : Z * Z :=
  if 0 <=? e then (Zpos m * 2 ^ e, 1) else (Zpos m, 2 ^ (- e)).

(** *** Reading numbers *)

Definition digitValue (c : ascii) : Z := Z.of_nat (nat_of_ascii c) - 48.

Fixpoint digitsValue (acc : Z) (s : string) : Z :=
  match s with
  | EmptyString => acc
  | String c s' => digitsValue (10 * acc + digitValue c) s'
  end.

(** The longest prefix of decimal digits, and what follows it. *)
Fixpoint spanDigits (s : string) : string * string :=
  match s with
  | String c s' =>
      if JsString.isDigit c then
        let (d, r) := spanDigits s' in (String c d, r)
      else (EmptyString, s)
  | EmptyString => (EmptyString, EmptyString)
  end.

(** An optional sign: [true] for [-]. *)
Definition scanSign (s : string) : bool * string :=
  match s with
  | String "-" s' => (true, s')
  | String "+" s' => (false, s')
  | _ => (false, s)
  end.

(** An optional [ExponentPart]; without digits after [e] there is none. *)
Definition scanExponent (s : string) : Z * string :=
  match s with
  | String c s' =>
      if Ascii.eqb c "e" || Ascii.eqb c "E" then
        let (neg, s1) := scanSign s' in
        let (d, r) := spanDigits s1 in
        if JsString.isEmpty d then (0, s)
        else ((if neg then - digitsValue 0 d else digitsValue 0 d), r)
      else (0, s)
  | EmptyString => (0, s)
  end.

(** The longest prefix that is a [StrDecimalLiteral], with its value and
    what follows it. *)
Definition scanDecimal (s : string) : option (float * string) :=
  let (neg, s0) := scanSign s in
  match JsString.stripPrefix "Infinity" s0 with
  | Some r => Some (negIf neg infinity, r)
  | None =>
      let (ip, r1) := spanDigits s0 in
      let '(fp, r2, ok) :=
        match r1 with
        | String "." r =>
            let (fp, r2) := spanDigits r in
            if JsString.isEmpty ip && JsString.isEmpty fp
            then (EmptyString, r1, false)
            else (fp, r2, true)
        | _ => (EmptyString, r1, negb (JsString.isEmpty ip))
        end in
      if ok then
        let (ex, r3) := scanExponent r2 in
        let m := digitsValue 0 (ip +:+ fp) in
        Some (negIf neg (ofDecimal m (ex - Z.of_nat (String.length fp))), r3)
      else None
  end.

(** [parseFloat(s)]. *)
Definition parseFloat (s : string) : float :=
  match scanDecimal (JsString.trimStart s) with
  | Some (v, _) => v
  | None => nan
  end.

(** [parseInt(s, 10)]. *)
Definition parseInt10 (s : string) : float :=
  let (neg, s0) := scanSign (JsString.trimStart s) in
  let (d, _) := spanDigits s0 in
  if JsString.isEmpty d then nan else negIf neg (ofZ (digitsValue 0 d)).

(** Digits of a radix other than ten, for [0x], [0o] and [0b] literals. *)
Definition radixDigit (radix : Z) (c : ascii) : option Z :=
  let n := Z.of_nat (nat_of_ascii (JsString.lowerChar c)) in
  let v := if (48 <=? n) && (n <=? 57) then n - 48
           else if (97 <=? n) && (n <=? 122) then n - 87
           else radix in
  if v <? radix then Some v else None.

Fixpoint radixValue (radix acc : Z) (s : string) : option Z :=
  match s with
  | EmptyString => Some acc
  | String c s' =>
      match radixDigit radix c with
      | Some v => radixValue radix (radix * acc + v) s'
      | None => None
      end
  end.

Definition scanRadix (s : string) : option (Z * string) :=
  match s with
  | String "0" (String c r) =>
      let l := JsString.lowerChar c in
      if Ascii.eqb l "x" then Some (16, r)
      else if Ascii.eqb l "o" then Some (8, r)
      else if Ascii.eqb l "b" then Some (2, r)
      else None
  | _ => None
  end.

(** [Number(s)]: the whole trimmed string must be a numeric literal. *)
Definition ofString (s : string) : float :=
  let t := JsString.trim s in
  if JsString.isEmpty t then zero
  else
    match scanRadix t with
    | Some (radix, r) =>
        if JsString.isEmpty r then nan
        else match radixValue radix 0 r with
             | Some v => ofZ v
             | None => nan
             end
    | None =>
        match scanDecimal t with
        | Some (v, EmptyString) => v
        | _ => nan
        end
    end.

(** *** [Math.floor] and [%] *)

Definition floor (x : float) : float :=
  match Prim2SF x with
  | S754_finite s m e =>
      if 0 <=? e then x
      else
        let q := Zpos m / 2 ^ (- e) in
        let r := Zpos m mod 2 ^ (- e) in
        if s then PrimFloat.opp (ofZ (if r =? 0 then q else q + 1))
        else ofZ q
  | _ => x
  end.

Definition rem (x y : float) : float :=
  match Prim2SF x, Prim2SF y with
  | S754_nan, _ | _, S754_nan => nan
  | S754_infinity _, _ => nan
  | _, S754_zero _ => nan
  | S754_zero _, _ => x
  | S754_finite _ _ _, S754_infinity _ => x
  | S754_finite sx mx ex, S754_finite _ my ey =>
      let e := Z.min ex ey in
      let r := (Zpos mx * 2 ^ (ex - e)) mod (Zpos my * 2 ^ (ey - e)) in
      negIf sx (SF2Prim (binary_normalize prec emax r e false))
  end.

(** *** Writing numbers *)

(** The greatest [e] with [10^e <= n / d], for [n, d > 0]. *)
Fixpoint climb (fuel : nat) (n d e : Z) : Z :=
  match fuel with
  | O => e
  | S fuel' =>
      if d * 10 ^ (e + 1) <=? n then climb fuel' n d (e + 1) else e
  end.

Fixpoint descend (fuel : nat) (n d e : Z) : Z :=
  match fuel with
  | O => e
  | S fuel' =>
      if n * 10 ^ (- e) <? d then descend fuel' n d (e - 1) else e
  end.

Definition ilog10 (n d : Z) : Z :=
  if d <=? n then climb (S (Z.to_nat (Z.log2 n))) n d 0
  else descend (S (Z.to_nat (Z.log2 d))) n d (- 1).

(** [n / (d * 10^e)] as a fraction, for any integer [e]. *)
Definition scale10 (n d e : Z) : Z * Z :=
  if 0 <=? e then (n, d * 10 ^ e) else (n * 10 ^ (- e), d).

Definition digitChar (v : Z) : ascii := ascii_of_nat (Z.to_nat (48 + v)).

(** The [k] low decimal digits of [n], most significant first. *)
Fixpoint digitsOf (k : nat) (n : Z) (acc : string) : string :=
  match k with
  | O => acc
  | S k' => digitsOf k' (n / 10) (String (digitChar (n mod 10)) acc)
  end.

(** The decimal digits of an integer [n >= 0], without leading zeros. *)
Definition natString (n : Z) : string :=
  if n =? 0 then "0"%string
  else digitsOf (S (Z.to_nat (ilog10 n 1))) n EmptyString.

Fixpoint zeros (k : nat) : string :=
  match k with
  | O => EmptyString
  | S k' => String "0" (zeros k')
  end.

Definition signString (s : bool) : string :=
  if s then "-"%string else EmptyString.

(** [d.ddd] followed by [e+x] or [e-x]: the exponential notation. *)
Definition exponential (digits : string) (e : Z) : string :=
  let m := match digits with
           | String a EmptyString => digits
           | String a b => String a (String "." b)
           | EmptyString => EmptyString
           end in
  (m +:+ "e" +:+ (if (e <? 0)%Z then "-" else "+") +:+ natString (Z.abs e))%string.

(** [x.toPrecision(p)], for [1 <= p <= 100]. *)
Definition toPrecision (p : nat) (x : float) : string :=
  match Prim2SF x with
  | S754_nan => "NaN"%string
  | S754_infinity s => (signString s +:+ "Infinity")%string
  | S754_zero _ =>
      match p with
      | S (S q) => String "0" (String "." (zeros (S q)))
      | _ => "0"%string
      end
  | S754_finite s m ex =>
      let (n, d) := fraction m ex in
      let e0 := ilog10 n d in
      let P := Z.of_nat p in
      let (n1, d1) := scale10 n d (e0 - P + 1) in
      let r := (2 * n1 + d1) / (2 * d1) in
      let (r, e) := if r =? 10 ^ P then (10 ^ (P - 1), e0 + 1) else (r, e0) in
      let digits := digitsOf p r EmptyString in
      (signString s +:+
       if ((e <? -6) || (P <=? e))%Z then exponential digits e
       else if (e =? P - 1)%Z then digits
       else if (0 <=? e)%Z then
         String.substring 0 (S (Z.to_nat e)) digits +:+ "." +:+
         String.substring (S (Z.to_nat e)) (p - S (Z.to_nat e)) digits
       else "0." +:+ zeros (Z.to_nat (- (e + 1))) +:+ digits)%string
  end.

(** The shortest digit string that reads back as the float [n / d]:
    [Some (k, s, e)] with [s] a [k]-digit integer and [s * 10^(e-k)]
    nearest to [n / d] among those that read back as it. *)
Fixpoint shortest (fuel k : nat) (x : float) (n d e : Z)
  : option (nat * Z * Z) :=
  match fuel with
  | O => None
  | S fuel' =>
      let K := Z.of_nat k in
      let (n1, d1) := scale10 n d (e - K) in
      let lo := n1 / d1 in
      let hi := lo + 1 in
      let back v := PrimFloat.eqb (ofDecimal v (e - K)) x in
      let pick v := if v =? 10 ^ K then Some (k, 10 ^ (K - 1), e + 1)
                    else Some (k, v, e) in
      match back lo, back hi with
      | true, true =>
          match 2 * (n1 - lo * d1) ?= d1 with
          | Lt => pick lo
          | Gt => pick hi
          | Eq => if Z.even lo then pick lo else pick hi
          end
      | true, false => pick lo
      | false, true => pick hi
      | false, false => shortest fuel' (S k) x n d e
      end
  end.

(** [Number::toString(x)] in radix ten, as in a template literal. *)
Definition toString (x : float) : string :=
  match Prim2SF x with
  | S754_nan => "NaN"%string
  | S754_infinity s => (signString s +:+ "Infinity")%string
  | S754_zero _ => "0"%string
  | S754_finite s m ex =>
      let (n, d) := fraction m ex in
      match shortest 17 1 (PrimFloat.abs x) n d (ilog10 n d + 1) with
      | None => "NaN"%string
      | Some (k, v, e) =>
          let K := Z.of_nat k in
          let digits := digitsOf k v EmptyString in
          (signString s +:+
           if ((K <=? e) && (e <=? 21))%Z then digits +:+ zeros (Z.to_nat (e - K))
           else if ((0 <? e) && (e <=? 21))%Z then
             String.substring 0 (Z.to_nat e) digits +:+ "." +:+
             String.substring (Z.to_nat e) (k - Z.to_nat e) digits
           else if ((-6 <? e) && (e <=? 0))%Z then
             "0." +:+ zeros (Z.to_nat (- e)) +:+ digits
           else exponential digits (e - 1))%string
      end
  end.

End JsNumber.

(** ** The library module [lib.ts] *)

Module Lib.

Import RegExp.

(** *** Exceptions

    Every value the program throws is an [Error] instance, so that the
    [catch] of [parseInput] always takes its [instanceof Error] branch. *)

Record JsError : Type := { name : string; message : string }.

Definition Error (msg : string) : JsError :=
  {| name := "Error"; message := msg |}.

(** Raised by the runtime when a method is called on [undefined]. *)
Definition TypeError (msg : string) : JsError :=
  {| name := "TypeError"; message := msg |}.

(** [Error.prototype.toString]. *)
Definition errorToString (e : JsError) : string :=
  if JsString.isEmpty (name e) then message e
  else if JsString.isEmpty (message e) then name e
  else name e +:+ ": " +:+ message e.

Inductive result (A : Type) : Type :=
| Ok (a : A)
| Throw (e : JsError).
Arguments Ok {A} a.
Arguments Throw {A} e.

Definition bind {A B : Type} (m : result A) (f : A -> result B) : result B :=
  match m with
  | Ok a => f a
  | Throw e => Throw e
  end.

Notation "'let*' x ':=' m 'in' k" := (bind m (fun x => k))
  (at level 10, x name, m at level 100, k at level 200).

(** The receiver of a method call: [undefined] has no methods. *)
Definition receiver (o : option string) : result string :=
  match o with
  | Some s => Ok s
  | None => Throw (TypeError "Cannot read properties of undefined")
  end.

(** [String(v)] for a value of type [string | undefined]. *)
Definition toStr (o : option string) : string :=
  match o with Some s => s | None => "undefined" end.

(** [v || d] for a value of type [string | undefined]. *)
Definition orElse (o : option string) (d : string) : string :=
  match o with
  | Some s => if JsString.isEmpty s then d else s
  | None => d
  end.

(** An element of an array of numbers used in arithmetic: a missing
    element is [undefined], which converts to [NaN]. *)
Definition elem (l : list float) (i : nat) : float := nth i l nan.

(** Truthiness of a value of type [number | null | undefined]. *)
Definition truthyNumber (o : option float) : bool :=
  match o with
  | Some x => JsNumber.truthy x
  | None => false
  end.

Record CalculationResult : Type := { input : string; output : string }.

(** *** Classification of tokens *)

(** [\d+(?:\.\d+)?] *)
Definition decimal : regex := Seq Digits (Opt (Seq (Lit ".") Digits)).

(** The table [regexes] of [parseInputString], in the order of its keys. *)
Definition regexes : list (string * list regex) :=
  [ ("fileSize",
     [ seqs [Bol; decimal;
             alts [Lit "B"; Lit "KB"; Lit "MB"; Lit "GB"; Lit "TB"]; Eol] ]);
    ("duration",
     [ seqs [Bol; decimal; Cls "hms"; Eol];
       seqs [Bol; Digits; Lit ":"; Digits; Lit ":"; Digits; Eol];
       seqs [Bol; Digits; Lit ":"; Digits; Eol];
       seqs [Bol; Digits; Lit "h"; Opt (Seq Digits (Lit "m"));
             Opt (Seq Digits (Lit "s")); Eol];
       seqs [Bol; Digits; Lit "m"; Opt (Seq Digits (Lit "s")); Eol] ]);
    ("resolution", [ seqs [Bol; Digits; Lit "x"; Digits; Eol] ]);
    ("frameRate", [ seqs [Bol; decimal; Lit "fps"; Eol] ]);
    ("bitRate",
     [ seqs [Bol; decimal;
             alts [Lit "bps"; Lit "kbps"; Lit "Mbps"; Lit "Gbps";
                   Lit "k"; Lit "M"; Lit "G"]; Eol] ]) ].

(** The [for (const key in regexes)] loop on one token: the first key
    one of whose patterns matches the token. *)
Fixpoint classify (table : list (string * list regex)) (token : string)
  : option string :=
  match table with
  | [] => None
  | (key, patterns) :: rest =>
      if existsb (fun regex => test false regex token) patterns
      then Some key
      else classify rest token
  end.

(** [input.split(" ").map(trim).filter(...)]. *)
Definition tokens (input : string) : list string :=
  List.filter
    (fun s => (0 <? String.length s)%nat && negb (JsString.startsWith "/" s))
    (map JsString.trim (JsString.split " " input)).

Record Parsed : Type :=
  { parsed : gmap string string; unknownTokens : list string }.

(** The body of [tokens.forEach]. *)
Definition classifyToken (acc : Parsed) (token : string) : Parsed :=
  match classify regexes token with
  | Some key =>
      {| parsed := <[key := token]> (parsed acc);
         unknownTokens := unknownTokens acc |}
  | None =>
      {| parsed := parsed acc;
         unknownTokens := unknownTokens acc ++ [token] |}
  end.

Definition parseInputString (input : string) : Parsed :=
  fold_left classifyToken (tokens input)
    {| parsed := ∅; unknownTokens := [] |}.

(** *** Unit parsers *)

Local Open Scope float_scope.

(** [/(\d+h)?(\d+m)?(\d+s)?/i] *)
Definition hmsRegex : regex :=
  seqs [ Opt (Grp 1 (Seq Digits (Lit "h")));
         Opt (Grp 2 (Seq Digits (Lit "m")));
         Opt (Grp 3 (Seq Digits (Lit "s"))) ].

Definition parseDuration (duration : string) : option float :=
  if JsString.includes ":" duration then
    let parts := map JsNumber.ofString (JsString.split ":" duration) in
    match parts with
    | [m; s] => Some (m * 60 + s)
    | [h; m; s] => Some (h * 3600 + m * 60 + s)
    | _ => None
    end
  else
    match exec true hmsRegex duration with
    | None => None
    | Some match_ =>
        let num (i : nat) := JsNumber.parseInt10 (orElse (match_ !! i) "0") in
        let hours := num 1%nat in
        let minutes := num 2%nat in
        let seconds := num 3%nat in
        Some (JsNumber.orZero hours * 3600 + JsNumber.orZero minutes * 60
              + JsNumber.orZero seconds)
    end.

(** [/(\d+(\.\d+)?)([TGMK]?B?)/i] *)
Definition sizeRegex : regex :=
  seqs [ Grp 1 (Seq Digits (Opt (Grp 2 (Seq (Lit ".") Digits))));
         Grp 3 (Seq (Opt (Cls "TGMK")) (Opt (Lit "B"))) ].

Definition parseFileSize (fileSize : string) : result float :=
  match exec true sizeRegex fileSize with
  | None => Throw (Error "Invalid file size format.")
  | Some match_ =>
      let size := match_ !! 1%nat in
      let unit := match_ !! 3%nat in
      let sizeInBytes := JsNumber.parseFloat (toStr size) in
      let* u := receiver unit in
      let unitLower := JsString.toUpperCase u in
      let multiplier :=
        if String.eqb unitLower "TB" then 1e12
        else if String.eqb unitLower "GB" then 1e9
        else if String.eqb unitLower "MB" then 1e6
        else if String.eqb unitLower "KB" then 1e3
        else 1 in
      Ok (sizeInBytes * multiplier)
  end.

(** [/^(\d+(?:\.\d+)?)(bps|kbps|Mbps|Gbps|k|M|G)$/] *)
Definition rateRegex : regex :=
  seqs [ Bol; Grp 1 decimal;
         Grp 2 (alts [Lit "bps"; Lit "kbps"; Lit "Mbps"; Lit "Gbps";
                      Lit "k"; Lit "M"; Lit "G"]);
         Eol ].

Definition parseBitRate (bitRate : string) : result float :=
  match exec false rateRegex bitRate with
  | None => Throw (Error "Invalid bit rate format.")
  | Some match_ =>
      let value := JsNumber.parseFloat (toStr (match_ !! 1%nat)) in
      let* u := receiver (match_ !! 2%nat) in
      let unit := JsString.toLowerCase u in
      if String.eqb unit "k" || String.eqb unit "kb" || String.eqb unit "kbps"
      then Ok (value * 1e3)
      else if String.eqb unit "m" || String.eqb unit "mb"
              || String.eqb unit "mbps"
      then Ok (value * 1e6)
      else if String.eqb unit "g" || String.eqb unit "gb"
              || String.eqb unit "gbps"
      then Ok (value * 1e9)
      else Throw (Error "Unsupported bit rate unit.")
  end.

(** *** Calculators *)

(** [width * height * fps] of the block guarded by
    [if (resolution && frameRate)]. *)
Definition pixelsPerSecond (resolution frameRate : string) : float :=
  let dims := map JsNumber.ofString (JsString.split "x" resolution) in
  let width := elem dims 0 in
  let height := elem dims 1 in
  let fps := JsNumber.parseInt10 (JsString.replace "fps" EmptyString frameRate) in
  width * height * fps.

Definition calculateBitRate (fileSize : option string) (duration : float)
    (resolution frameRate : option string) : result string :=
  let* size := (let* s := receiver fileSize in parseFileSize s) in
  let sizeInBits := size * 8 in
  let bitRate := sizeInBits / duration in
  let bitsPerPixel :=
    match resolution, frameRate with
    | Some res, Some fr =>
        if JsString.truthy resolution && JsString.truthy frameRate
        then bitRate / pixelsPerSecond res fr
        else 0
    | _, _ => 0
    end in
  let result :=
    if 1e6 <=? bitRate then JsNumber.toPrecision 3 (bitRate / 1e6) +:+ " Mbps"
    else if 1e3 <=? bitRate
    then JsNumber.toPrecision 3 (bitRate / 1e3) +:+ " kbps"
    else JsNumber.toPrecision 3 bitRate +:+ " bps" in
  Ok (result +:+
      (if 0 <? bitsPerPixel
       then " (" +:+ JsNumber.toPrecision 3 bitsPerPixel +:+ " bits/pixel)"
       else EmptyString)).

Definition calculateFileSize (bitRate : option string) (duration : float)
    (resolution frameRate : option string) : result string :=
  let* rateInBits := (let* s := receiver bitRate in parseBitRate s) in
  let fileSize :=
    match resolution, frameRate with
    | Some res, Some fr =>
        if JsString.truthy resolution && JsString.truthy frameRate
        then
          let pixelsPerSecond := pixelsPerSecond res fr in
          let bitsPerPixel := rateInBits / pixelsPerSecond in
          bitsPerPixel * pixelsPerSecond * duration
        else rateInBits * duration
    | _, _ => rateInBits * duration
    end in
  Ok (if fileSize <? 1e3 then JsNumber.toString fileSize +:+ " bytes"
      else if fileSize <? 1e6
      then JsNumber.toPrecision 3 (fileSize / 1e3) +:+ " kB"
      else if fileSize <? 1e9
      then JsNumber.toPrecision 3 (fileSize / 1e6) +:+ " MB"
      else if fileSize <? 1e12
      then JsNumber.toPrecision 3 (fileSize / 1e9) +:+ " GB"
      else JsNumber.toPrecision 3 (fileSize / 1e12) +:+ " TB").

(** The block guarded by [if (resolution && frameRate)] computes two
    local numbers and uses neither: it has no effect on the result. *)
Definition calculateDuration (fileSize bitRate : option string)
    (resolution frameRate : option string) : result string :=
  let* size := (let* s := receiver fileSize in parseFileSize s) in
  let sizeInBits := size * 8 in
  let* rateInBits := (let* s := receiver bitRate in parseBitRate s) in
  let duration := sizeInBits / rateInBits in
  if 3600 <=? duration then
    let hours := JsNumber.floor (duration / 3600) in
    let minutes := JsNumber.floor (JsNumber.rem duration 3600 / 60) in
    let seconds := JsNumber.floor (JsNumber.rem duration 60) in
    Ok ("(hh:mm:ss): " +:+ JsNumber.toString hours +:+ ":" +:+
        JsNumber.toString minutes +:+ ":" +:+ JsNumber.toString seconds)
  else if 60 <=? duration then
    let minutes := JsNumber.floor (duration / 60) in
    let seconds := JsNumber.floor (JsNumber.rem duration 60) in
    Ok ("(mm:ss): " +:+ JsNumber.toString minutes +:+ ":" +:+
        JsNumber.toString seconds)
  else Ok ("(s): " +:+ JsNumber.toString duration).

(** *** The resolver *)

Definition requiredKeys : list string := ["bitRate"; "duration"; "fileSize"].

(** [key in parsed]. *)
Definition hasKey (parsed : gmap string string) (key : string) : bool :=
  match parsed !! key with Some _ => true | None => false end.

(** The body of the [try] block of [parseInput]. *)
Definition parseInputTry (input_ : string) : result CalculationResult :=
  let p := parseInputString input_ in
  let parsed := parsed p in
  let unknownTokens := unknownTokens p in
  if (0 <? length unknownTokens)%nat then
    Throw (Error ("Unknown tokens: " +:+ JsString.join ", " unknownTokens))
  else
  let missingKeys := List.filter (fun key => negb (hasKey parsed key)) requiredKeys in
  if negb (length missingKeys =? 1)%nat then
    Throw (Error "Invalid input. Provide at least two parameters to calculate the missing value.")
  else
  let bitRate := parsed !! "bitRate" in
  let duration := parsed !! "duration" in
  let fileSize := parsed !! "fileSize" in
  let resolution := parsed !! "resolution" in
  let frameRate := parsed !! "frameRate" in
  let* durationInSeconds :=
    match duration with
    | Some d =>
        let seconds := parseDuration d in
        if negb (truthyNumber seconds)
        then Throw (Error ("Invalid duration format " +:+ d))
        else Ok seconds
    | None => Ok None
    end in
  match durationInSeconds with
  | Some seconds =>
      if negb (JsNumber.truthy seconds) then
        let* calculatedDuration :=
          calculateDuration fileSize bitRate resolution frameRate in
        Ok {| input := input_; output := "Duration " +:+ calculatedDuration |}
      else if negb (JsString.truthy bitRate) then
        let* calculatedBitRate :=
          calculateBitRate fileSize seconds resolution frameRate in
        Ok {| input := input_; output := "Bit rate: " +:+ calculatedBitRate |}
      else if negb (JsString.truthy fileSize) then
        let* calculatedFileSize :=
          calculateFileSize bitRate seconds None None in
        Ok {| input := input_; output := "File size: " +:+ calculatedFileSize |}
      else Throw (Error "All values were provided. Nothing to calculate.")
  | None =>
      let* calculatedDuration :=
        calculateDuration fileSize bitRate resolution frameRate in
      Ok {| input := input_; output := "Duration " +:+ calculatedDuration |}
  end.

(** [parseInput]: the [try] block and its [catch]. *)
Definition parseInput (input_ : string) : CalculationResult :=
  match parseInputTry input_ with
  | Ok r => r
  | Throw e => {| input := input_; output := errorToString e |}
  end.

End Lib.

(** ** Vocabulary of the statements *)

Module Outcome.

Import Lib.

(** A token that no pattern of [regexes] matches. *)
Definition unmatched (token : string) : bool :=
  match classify regexes token with
  | Some _ => false
  | None => true
  end.

(** A token that [regexes] files under [key]. *)
Definition matches (key token : string) : bool :=
  match classify regexes token with
  | Some k => String.eqb k key
  | None => false
  end.

(** The messages of the errors that [parseInput] can catch. *)
Inductive Failure (input_ : string) : string -> Prop :=
| UnknownToken :
    unknownTokens (parseInputString input_) <> [] ->
    Failure input_
      ("Unknown tokens: " +:+
       JsString.join ", " (unknownTokens (parseInputString input_)))
| ParameterCount :
    Failure input_
      "Invalid input. Provide at least two parameters to calculate the missing value."
| InvalidDurationFormat (d : string) :
    parsed (parseInputString input_) !! "duration" = Some d ->
    Failure input_ ("Invalid duration format " +:+ d)
| InvalidFileSizeFormat : Failure input_ "Invalid file size format."
| InvalidBitRateFormat : Failure input_ "Invalid bit rate format."
| UnsupportedBitRateUnit : Failure input_ "Unsupported bit rate unit.".

(** The three forms of a computed result. *)
Inductive Success : string -> Prop :=
| DurationResult (body : string) : Success ("Duration " +:+ body)
| BitRateResult (body : string) : Success ("Bit rate: " +:+ body)
| FileSizeResult (body : string) : Success ("File size: " +:+ body).

(** The errors of [parseFileSize] and [parseBitRate]. *)
Definition parserError (e : JsError) : Prop :=
  e = Error "Invalid file size format." \/
  e = Error "Invalid bit rate format." \/
  e = Error "Unsupported bit rate unit.".

(** The number of [requiredKeys] that [parsed] lacks. *)
Definition missingCount (parsed : gmap string string) : nat :=
  length (List.filter (fun key => negb (hasKey parsed key)) requiredKeys).

End Outcome.

(** ** The shell [App.tsx]

    The component keeps three state variables. A handler reads the values
    of the render it was created in, and each call of a setter records the
    value of the next render: the last call for a variable wins, and a
    variable that no call sets keeps its value. The handlers below take the
    state of the current render and return the state of the next one; the
    copy of the history in [localStorage], the focus of the input box and
    the reference [historyUpdated], which is written and never read, are
    not modelled. *)

Module App.

Definition maxHistoryItems : nat := 100.

(** [help] of [lib.ts]. *)
Definition help : string :=
  "This is a simple calculator for video encoding parameters.".

Record State : Type :=
  { history : list Lib.CalculationResult;
    input : string;
    historyIndex : option Z }.

Definition setHistory (h : list Lib.CalculationResult) (next : State) : State :=
  {| history := h; input := input next; historyIndex := historyIndex next |}.

Definition setInput (i : string) (next : State) : State :=
  {| history := history next; input := i; historyIndex := historyIndex next |}.

Definition setHistoryIndex (i : option Z) (next : State) : State :=
  {| history := history next; input := input next; historyIndex := i |}.

(** [history[k]?.input || ""], for an index [k] that may be out of range. *)
Definition inputAt (h : list Lib.CalculationResult) (k : Z) : string :=
  if (k <? 0)%Z then EmptyString
  else match nth_error h (Z.to_nat k) with
       | Some entry => Lib.input entry
       | None => EmptyString
       end.

Definition purgeOldHistory (s next : State) : State :=
  if (maxHistoryItems <? length (history s))%nat then
    let next :=
      setHistory (skipn (length (history s) - maxHistoryItems) (history s))
        next in
    match historyIndex s with
    | Some i =>
        if (i <? Z.of_nat (length (history s)) - 1)%Z
        then setHistoryIndex (Some i) next
        else if (Z.of_nat (length (history s)) <=? i)%Z
        then setHistoryIndex None next
        else next
    | None => next
    end
  else next.

Definition handleClearHistory (next : State) : State := setHistory [] next.

(** [parseInput] returns an object with the properties [input] and
    [output] and does not throw, so that the handler takes the
    [typeof result === "object"] branch of its [try] block. *)
Definition handleInputSubmit (s : State) : State :=
  if JsString.startsWith "/clear" (input s) then handleClearHistory s
  else if JsString.startsWith "/help" (input s) then
    setHistory
      (history s ++ [ {| Lib.input := input s; Lib.output := help |} ]) s
  else
    let result := Lib.parseInput (input s) in
    let next :=
      setHistory
        (history s ++ [ {| Lib.input := Lib.input result;
                           Lib.output := Lib.output result |} ]) s in
    let next := purgeOldHistory s next in
    let next := setInput EmptyString next in
    setHistoryIndex None next.

(** [handleKeyDown], on the value of [e.key]. *)
Definition handleKeyDown (key : string) (s : State) : State :=
  let len := Z.of_nat (length (history s)) in
  if String.eqb key "ArrowUp" then
    match historyIndex s with
    | None =>
        setInput (inputAt (history s) (len - 1))
          (setHistoryIndex (Some (len - 1)%Z) s)
    | Some i =>
        if (0 <? i)%Z then
          setInput (inputAt (history s) (i - 1))
            (setHistoryIndex (Some (i - 1)%Z) s)
        else s
    end
  else if String.eqb key "ArrowDown" then
    match historyIndex s with
    | Some i =>
        if (i <? len - 1)%Z then
          setInput (inputAt (history s) (i + 1))
            (setHistoryIndex (Some (i + 1)%Z) s)
        else setInput EmptyString (setHistoryIndex None s)
    | None => setInput EmptyString (setHistoryIndex None s)
    end
  else s.

End App.

(** ** Vocabulary of the statements on text *)

Module Text.

(** A string of decimal digits, possibly empty. *)
Fixpoint allDigits (s : string) : bool :=
  match s with
  | EmptyString => true
  | String c s' => JsString.isDigit c && allDigits s'
  end.

(** A string that [\d+] matches as a whole. *)
Definition isDigits (s : string) : bool :=
  negb (JsString.isEmpty s) && allDigits s.

(** A string that holds a decimal digit. *)
Fixpoint hasDigit (s : string) : bool :=
  match s with
  | EmptyString => false
  | String c s' => JsString.isDigit c || hasDigit s'
  end.

(** A string in which a character occurs. *)
Fixpoint hasChar (a : ascii) (s : string) : bool :=
  match s with
  | EmptyString => false
  | String c s' => Ascii.eqb c a || hasChar a s'
  end.

(** A string that begins with a decimal digit. *)
Definition startsWithDigit (s : string) : bool :=
  match s with
  | EmptyString => false
  | String c _ => JsString.isDigit c
  end.

(** What may follow a number: neither a digit nor a point. *)
Definition endsNumber (rest : string) : bool :=
  match rest with
  | EmptyString => true
  | String c _ => negb (JsString.isDigit c) && negb (Ascii.eqb c ".")
  end.

(** A string that [\d+(?:\.\d+)?] matches as a whole. *)
Inductive Decimal : string -> Prop :=
| Integer (ds : string) : isDigits ds = true -> Decimal ds
| Fraction (a b : string) :
    isDigits a = true -> isDigits b = true -> Decimal (a +:+ "." +:+ b).

(** The component of a duration [<digits>h<digits>m<digits>s]: the digits
    and the unit, or nothing. *)
Definition component (digits : option string) (unit : string) : string :=
  match digits with
  | Some ds => ds +:+ unit
  | None => EmptyString
  end.

Definition wellFormed (digits : option string) : bool :=
  match digits with
  | Some ds => isDigits ds
  | None => true
  end.

(** [parseInt(x || "0", 10) || 0] on a component of a duration. *)
Definition amount (digits : option string) : float :=
  match digits with
  | Some ds => JsNumber.orZero (JsNumber.ofZ (JsNumber.digitsValue 0 ds))
  | None => 0%float
  end.

(** A pattern without its capturing groups. *)
Fixpoint ungroup (r : RegExp.regex) : RegExp.regex :=
  match r with
  | RegExp.Seq r1 r2 => RegExp.Seq (ungroup r1) (ungroup r2)
  | RegExp.Alt r1 r2 => RegExp.Alt (ungroup r1) (ungroup r2)
  | RegExp.Opt r1 => RegExp.Opt (ungroup r1)
  | RegExp.Grp _ r1 => ungroup r1
  | _ => r
  end.

End Text.

(** ** Vocabulary of the statements on file sizes *)

Module Size.

Local Open Scope float_scope.




End Size.

(** * Properties *)

(** ** The matcher calls its continuation *)

Section MatcherFacts.
Import RegExp.
Variable ignoreCase : bool.

Local Ltac reached := repeat eexists; eassumption.

Lemma matchDigits_reaches (k : cont) (s : string) :
  forall pos c res,
    matchDigits k pos s c = Some res ->
    exists p s' c', k p s' c' = Some res.
Proof.
  induction s as [|a s IH]; intros pos c res H; simpl in H; [discriminate|].
  destruct (JsString.isDigit a); [|discriminate].
  destruct (matchDigits k (S pos) s c) eqn:E.
  - injection H as <-. eapply IH, E.
  - reached.
Qed.

(** A successful match is a successful run of the continuation. *)
Lemma rmatch_reaches (r : regex) :
  forall (k : cont) pos s c res,
    rmatch ignoreCase r k pos s c = Some res ->
    exists p s' c', k p s' c' = Some res.
Proof.
  induction r as [| |l|cs| |r1 IH1 r2 IH2|r1 IH1 r2 IH2|r1 IH1|i r1 IH1];
    intros k pos s c res H; cbn [rmatch] in H.
  - destruct (Nat.eqb pos 0); [reached|discriminate].
  - destruct (JsString.isEmpty s); [reached|discriminate].
  - destruct (matchLit ignoreCase l s); [reached|discriminate].
  - destruct s as [|a s]; [discriminate|].
    destruct (inClass ignoreCase cs a); [reached|discriminate].
  - eapply matchDigits_reaches, H.
  - apply IH1 in H as (p & s' & c' & H). eapply IH2, H.
  - destruct (rmatch ignoreCase r1 k pos s c) eqn:E.
    + injection H as <-. eapply IH1, E.
    + eapply IH2, H.
  - destruct (rmatch ignoreCase r1 k pos s c) eqn:E.
    + injection H as <-. eapply IH1, E.
    + reached.
  - apply IH1 in H as (p & s' & c' & H). reached.
Qed.

(** A group that is matched last is defined in the result. *)
Lemma rmatch_group_reaches (i : nat) (r : regex) (k : cont) pos s c res :
  rmatch ignoreCase (Grp i r) k pos s c = Some res ->
  exists p s' c' txt, k p s' (<[i := txt]> c') = Some res.
Proof.
  cbn [rmatch]. intros H. apply rmatch_reaches in H as (p & s' & c' & H).
  reached.
Qed.

Lemma execFrom_reaches (r : regex) (s : string) :
  forall pos res,
    execFrom ignoreCase r pos s = Some res ->
    exists pos' s0,
      rmatch ignoreCase r
        (fun p _ c => Some (<[0 := String.substring 0 (p - pos') s0]> c))
        pos' s0 ∅ = Some res.
Proof.
  induction s as [|a s IH]; intros pos res H; cbn [execFrom] in H.
  - destruct (rmatch _ _ _ _ _ _) eqn:E in H; [|discriminate].
    injection H as <-. reached.
  - destruct (rmatch _ _ _ _ _ _) eqn:E in H.
    + injection H as <-. reached.
    + eapply IH, H.
Qed.

End MatcherFacts.

(** ** The unit parsers raise only their own errors *)

Section ParserFacts.
Import RegExp Lib.

Lemma rmatch_seq_reaches ic (r1 r2 : regex) (k : cont) pos s c res :
  rmatch ic (Seq r1 r2) k pos s c = Some res ->
  exists p s' c', rmatch ic r2 k p s' c' = Some res.
Proof. cbn [rmatch]. apply rmatch_reaches. Qed.

(** A match of [sizeRegex] defines its third group. *)
Lemma sizeRegex_unit (fileSize : string) (m : captures) :
  exec true sizeRegex fileSize = Some m -> exists u, m !! 3%nat = Some u.
Proof.
  intros E. apply execFrom_reaches in E as (pos & s0 & E).
  unfold sizeRegex in E. cbn [seqs] in E.
  apply rmatch_seq_reaches in E as (p & s' & c' & E).
  apply rmatch_group_reaches in E as (p' & s'' & c'' & txt & E).
  injection E as <-. exists txt.
  rewrite lookup_insert_ne by discriminate. apply lookup_insert_eq.
Qed.

(** A match of [rateRegex] defines its second group. *)
Lemma rateRegex_unit (bitRate : string) (m : captures) :
  exec false rateRegex bitRate = Some m -> exists u, m !! 2%nat = Some u.
Proof.
  intros E. apply execFrom_reaches in E as (pos & s0 & E).
  unfold rateRegex in E. cbn [seqs] in E.
  apply rmatch_seq_reaches in E as (p & s' & c' & E).
  apply rmatch_seq_reaches in E as (p1 & s1 & c1 & E).
  change (rmatch false (Grp 2 ?r) ?k) with (rmatch false (Grp 2 r) k) in E.
  cbn [rmatch] in E.
  apply rmatch_reaches in E as (p2 & s2 & c2 & E).
  destruct (JsString.isEmpty s2); [|discriminate].
  injection E as <-. eexists.
  rewrite lookup_insert_ne by discriminate. apply lookup_insert_eq.
Qed.

Lemma parseFileSize_throws (fileSize : string) (e : JsError) :
  parseFileSize fileSize = Throw e -> e = Error "Invalid file size format.".
Proof.
  unfold parseFileSize.
  destruct (exec true sizeRegex fileSize) as [m|] eqn:E.
  - destruct (sizeRegex_unit _ _ E) as [u ->]. discriminate.
  - intros [= <-]. reflexivity.
Qed.

Lemma parseBitRate_throws (bitRate : string) (e : JsError) :
  parseBitRate bitRate = Throw e ->
  e = Error "Invalid bit rate format." \/ e = Error "Unsupported bit rate unit.".
Proof.
  unfold parseBitRate.
  destruct (exec false rateRegex bitRate) as [m|] eqn:E.
  - destruct (rateRegex_unit _ _ E) as [u ->]. cbn [receiver bind].
    repeat match goal with |- context [if ?b then _ else _] => destruct b end;
      try discriminate.
    intros [= <-]. now right.
  - intros [= <-]. now left.
Qed.

(** [hmsRegex] matches the empty string at the start of any string, so
    that [duration.match(hmsRegex)] is never [null]. *)
Lemma hmsRegex_matches (duration : string) :
  exists m, exec true hmsRegex duration = Some m.
Proof.
  assert (H : forall pos s c,
    exists m, rmatch true hmsRegex
                (fun p _ c => Some (<[0 := String.substring 0 (p - pos) s]> c))
                pos s c = Some m).
  { intros pos s c. unfold hmsRegex. cbn [seqs rmatch].
    repeat match goal with
           | |- context [match ?x with Some _ => _ | None => _ end] =>
               destruct x; [eexists; reflexivity|]
           end.
    eexists; reflexivity. }
  unfold exec. destruct duration as [|a s]; cbn [execFrom];
    destruct (H 0%nat) with (s := EmptyString) (c := (∅ : captures)) as [m Hm].
  - rewrite Hm. eauto.
  - destruct (H 0%nat (String a s) ∅) as [m' ->]. eauto.
Qed.

End ParserFacts.

(** ** The tokenizer and the classifier *)

Section ClassifierFacts.
Import Lib Outcome.

Lemma tokens_nonempty (input_ token : string) :
  In token (tokens input_) -> JsString.isEmpty token = false.
Proof.
  unfold tokens. rewrite filter_In. intros [_ H].
  apply andb_prop in H as [H _]. now destruct token.
Qed.

(** The unknown tokens are the unmatched tokens, in input order. *)
Lemma unknownTokens_fold (l : list string) :
  forall acc,
    unknownTokens (fold_left classifyToken l acc)
    = unknownTokens acc ++ List.filter unmatched l.
Proof.
  induction l as [|t l IH]; intros acc; cbn [fold_left List.filter].
  - now rewrite app_nil_r.
  - rewrite IH. unfold classifyToken, unmatched.
    destruct (classify regexes t); cbn [unknownTokens]; [reflexivity|].
    now rewrite <- app_assoc.
Qed.

Lemma unknownTokens_spec (input_ : string) :
  unknownTokens (parseInputString input_)
  = List.filter unmatched (tokens input_).
Proof. unfold parseInputString. now rewrite unknownTokens_fold. Qed.

(** Every value of [parsed] is one of the tokens. *)
Lemma parsed_fold (P : string -> Prop) (l : list string) :
  forall acc,
    (forall key v, parsed acc !! key = Some v -> P v) ->
    (forall t, In t l -> P t) ->
    forall key v,
      parsed (fold_left classifyToken l acc) !! key = Some v -> P v.
Proof.
  induction l as [|t l IH]; intros acc Hacc Hl key v; cbn [fold_left].
  - apply Hacc.
  - apply IH.
    + intros k w. unfold classifyToken.
      destruct (classify regexes t); cbn [parsed]; [|apply Hacc].
      rewrite lookup_insert_Some. intros [[_ <-]|[_ H]].
      * apply Hl. now left.
      * eapply Hacc, H.
    + intros t' Ht'. apply Hl. now right.
Qed.

Lemma parsed_token (input_ key v : string) :
  parsed (parseInputString input_) !! key = Some v -> In v (tokens input_).
Proof.
  unfold parseInputString.
  apply (parsed_fold (fun t => In t (tokens input_))); [|trivial].
  intros k w. cbn [parsed]. now rewrite lookup_empty.
Qed.

Lemma parsed_truthy (input_ key v : string) :
  parsed (parseInputString input_) !! key = Some v ->
  JsString.truthy (Some v) = true.
Proof.
  intros H. apply parsed_token, tokens_nonempty in H.
  cbn [JsString.truthy]. now rewrite H.
Qed.

End ClassifierFacts.

(** ** The outcomes of the resolver *)

Section ResolverFacts.
Import Lib Outcome.

Local Ltac parser_error :=
  match goal with
  | H : parseFileSize _ = Throw _ |- _ =>
      apply parseFileSize_throws in H; subst; left; reflexivity
  | H : parseBitRate _ = Throw _ |- _ =>
      apply parseBitRate_throws in H; destruct H; subst;
      [right; left|right; right]; reflexivity
  end.

Lemma calculateDuration_throws f b res fr e :
  calculateDuration (Some f) (Some b) res fr = Throw e -> parserError e.
Proof.
  unfold calculateDuration. cbn [receiver bind].
  destruct (parseFileSize f) eqn:Hf; cbn [bind];
    [|intros [= <-]; parser_error].
  destruct (parseBitRate b) eqn:Hb; cbn [bind];
    [|intros [= <-]; parser_error].
  repeat match goal with |- context [if ?c then _ else _] => destruct c end;
    discriminate.
Qed.

Lemma calculateBitRate_throws f seconds res fr e :
  calculateBitRate (Some f) seconds res fr = Throw e -> parserError e.
Proof.
  unfold calculateBitRate. cbn [receiver bind].
  destruct (parseFileSize f) eqn:Hf; cbn [bind];
    [discriminate|intros [= <-]; parser_error].
Qed.

Lemma calculateFileSize_throws b seconds res fr e :
  calculateFileSize (Some b) seconds res fr = Throw e -> parserError e.
Proof.
  unfold calculateFileSize. cbn [receiver bind].
  destruct (parseBitRate b) eqn:Hb; cbn [bind];
    [discriminate|intros [= <-]; parser_error].
Qed.

Lemma parserError_failure (input_ : string) (e : JsError) :
  parserError e -> exists msg, e = Error msg /\ Failure input_ msg.
Proof.
  intros [-> | [-> | ->]]; eexists; (split; [reflexivity|]); constructor.
Qed.

(** What [parseInputTry] returns or throws, for every input. *)
Lemma parseInputTry_outcome (input_ : string) :
  match parseInputTry input_ with
  | Ok r => input r = input_ /\ Success (output r)
  | Throw e => exists msg, e = Error msg /\ Failure input_ msg
  end.
Proof.
  unfold parseInputTry.
  destruct (0 <? length (unknownTokens (parseInputString input_)))%nat eqn:Hu.
  { eexists; split; [reflexivity|]. constructor.
    intros E. rewrite E in Hu. discriminate. }
  destruct (negb _) eqn:Hc.
  { eexists; split; [reflexivity|]. constructor. }
  apply negb_false_iff, Nat.eqb_eq in Hc.
  unfold requiredKeys, hasKey in Hc. cbn [List.filter] in Hc.
  destruct (parsed (parseInputString input_) !! "bitRate") as [b|] eqn:Hb;
    destruct (parsed (parseInputString input_) !! "duration") as [d|] eqn:Hd;
    destruct (parsed (parseInputString input_) !! "fileSize") as [f|] eqn:Hf;
    cbn in Hc; try discriminate Hc; clear Hc.
  - (* fileSize is missing *)
    destruct (negb (truthyNumber (parseDuration d))) eqn:Ht; cbn [bind].
    { eexists; split; [reflexivity|]. now constructor. }
    destruct (parseDuration d) as [seconds|]; [|discriminate Ht].
    cbn [truthyNumber] in Ht. rewrite Ht.
    rewrite (parsed_truthy _ _ _ Hb). cbn [negb JsString.truthy].
    destruct (calculateFileSize _ _ _ _) eqn:E; cbn [bind].
    + split; [reflexivity|constructor].
    + eapply parserError_failure, calculateFileSize_throws, E.
  - (* duration is missing *)
    cbn [bind].
    destruct (calculateDuration _ _ _ _) eqn:E; cbn [bind].
    + split; [reflexivity|constructor].
    + eapply parserError_failure, calculateDuration_throws, E.
  - (* bitRate is missing *)
    destruct (negb (truthyNumber (parseDuration d))) eqn:Ht; cbn [bind].
    { eexists; split; [reflexivity|]. now constructor. }
    destruct (parseDuration d) as [seconds|]; [|discriminate Ht].
    cbn [truthyNumber] in Ht. rewrite Ht. cbn [negb JsString.truthy].
    destruct (calculateBitRate _ _ _ _) eqn:E; cbn [bind].
    + split; [reflexivity|constructor].
    + eapply parserError_failure, calculateBitRate_throws, E.
Qed.

End ResolverFacts.

(** ** Splitting on spaces *)

Section TokenizerFacts.
Import Lib Outcome.

Lemma split_not_nil (sep : ascii) (s : string) : JsString.split sep s <> [].
Proof.
  destruct s as [|c s]; cbn [JsString.split]; [discriminate|].
  destruct (Ascii.eqb c sep); [discriminate|].
  destruct (JsString.split sep s); discriminate.
Qed.

(** Splitting distributes over a separator. *)
Lemma split_app (sep : ascii) (a b : string) :
  JsString.split sep (a +:+ String sep b)
  = JsString.split sep a ++ JsString.split sep b.
Proof.
  induction a as [|c a IH].
  - change (EmptyString +:+ String sep b) with (String sep b).
    cbn [JsString.split]. now rewrite Ascii.eqb_refl.
  - change (String c a +:+ String sep b) with (String c (a +:+ String sep b)).
    cbn [JsString.split]. rewrite IH. destruct (Ascii.eqb c sep); [reflexivity|].
    pose proof (split_not_nil sep a) as Hne.
    destruct (JsString.split sep a); [congruence|reflexivity].
Qed.

(** A string without the separator is a single fragment. *)
Lemma split_without_separator (sep : ascii) (s : string) :
  JsString.includes (String sep EmptyString) s = false ->
  JsString.split sep s = [s].
Proof.
  induction s as [|c s IH]; cbn [JsString.split JsString.includes];
    [reflexivity|].
  unfold JsString.startsWith. cbn [JsString.stripPrefix].
  rewrite Ascii.eqb_sym.
  destruct (Ascii.eqb c sep); [discriminate|].
  cbn [orb]. intros H. now rewrite (IH H).
Qed.

Lemma tokens_app (a b : string) :
  tokens (a +:+ " " +:+ b) = tokens a ++ tokens b.
Proof.
  unfold tokens. change (" " +:+ b) with (String " " b).
  now rewrite split_app, List.map_app, List.filter_app.
Qed.

(** A key of [parsed] holds the last token filed under it. *)
Lemma parsed_fold_last (key : string) (l : list string) :
  forall acc,
    parsed (fold_left classifyToken l acc) !! key
    = match last (List.filter (matches key) l) with
      | Some token => Some token
      | None => parsed acc !! key
      end.
Proof.
  induction l as [|t l IH]; intros acc; cbn [fold_left List.filter];
    [reflexivity|].
  rewrite IH. unfold classifyToken, matches at 2.
  destruct (classify regexes t) as [k|]; cbn [parsed].
  - destruct (String.eqb_spec k key) as [->|Hne].
    + rewrite lookup_insert_eq.
      destruct (List.filter (matches key) l) as [|x l'] eqn:E;
        [reflexivity|].
      rewrite last_cons_cons.
      destruct (last (x :: l')) eqn:El; [reflexivity|].
      apply last_None in El. discriminate.
    + now rewrite lookup_insert_ne.
  - reflexivity.
Qed.

Lemma parsed_spec (input_ key : string) :
  parsed (parseInputString input_) !! key
  = last (List.filter (matches key) (tokens input_)).
Proof.
  unfold parseInputString. rewrite parsed_fold_last. cbn [parsed].
  rewrite lookup_empty. now destruct (last _).
Qed.

End TokenizerFacts.

(** ** Rounding and rendering of numbers *)

Section RoundingFacts.
Local Open Scope Z_scope.








End RoundingFacts.

Section RenderingFacts.
Import Lib Size.
Local Open Scope float_scope.








End RenderingFacts.

(** ** The claims *)

Section Claims.
Import Lib Outcome Size.
Local Open Scope float_scope.

(** C1. For every input line [rawLine], [parseInput rawLine] is defined
    (the function is total: whatever the [try] block throws, the [catch]
    turns into a result) and its [input] field is [rawLine] unchanged.
    When the [try] block fails, what it throws is an [Error] whose message
    is one of the failures of [Failure] (unknown tokens, wrong parameter
    count, invalid duration, invalid file-size or bit-rate format), and
    the [output] is the string ["Error: "] followed by that message;
    otherwise the result is the one the block returns. *)
Theorem parseInput_never_raises (rawLine : string) :
  input (parseInput rawLine) = rawLine /\
  match parseInputTry rawLine with
  | Ok r => parseInput rawLine = r /\ Success (output r)
  | Throw e =>
      exists msg,
        e = Error msg /\ Failure rawLine msg /\
        output (parseInput rawLine) = "Error: " +:+ msg /\
        JsString.startsWith "Error: " (output (parseInput rawLine)) = true
  end.
Proof.
  pose proof (parseInputTry_outcome rawLine) as H. unfold parseInput.
  destruct (parseInputTry rawLine) as [r|e].
  - destruct H as [Hi Ho]. repeat split; assumption.
  - destruct H as (msg & -> & Hf). split; [reflexivity|].
    exists msg. cbn [output].
    assert (Hs : errorToString (Error msg) = "Error: " +:+ msg)
      by (destruct Hf; reflexivity).
    rewrite Hs. repeat split; assumption || reflexivity.
Qed.

(** With no unknown token and a number of missing keys other than one,
    [parseInput] reports the parameter count with the message of the
    source. *)
Lemma parseInput_parameter_count (input_ : string) :
  unknownTokens (parseInputString input_) = [] ->
  missingCount (parsed (parseInputString input_)) <> 1%nat ->
  parseInput input_ =
    {| input := input_;
       output := "Error: Invalid input. Provide at least two parameters to calculate the missing value." |}.
Proof.
  intros Hu Hm. unfold parseInput, parseInputTry. rewrite Hu. cbn [length Nat.ltb Nat.leb].
  fold (missingCount (parsed (parseInputString input_))).
  apply Nat.eqb_neq in Hm. rewrite Hm. reflexivity.
Qed.

(** C2 (evaluation of the code). With one parameter only ("500kbps",
    "99:99:99"), with none, or with all three, the output of [parseInput]
    is "Error: Invalid input. Provide at least two parameters to calculate
    the missing value.", not "Error: Provide only two parameters to
    calculate the missing value.". *)
Theorem parseInput_parameter_count_message :
  Forall
    (fun line =>
       output (parseInput line) =
         "Error: Invalid input. Provide at least two parameters to calculate the missing value."
       /\ output (parseInput line) <>
         "Error: Provide only two parameters to calculate the missing value.")
    ["500kbps"; "99:99:99"; EmptyString; "500kbps 00:02:00 10MB"].
Proof. repeat constructor; (vm_compute; reflexivity) || discriminate. Qed.

(** No input makes [parseInput] report that all values were provided:
    the [throw] that ends the [try] block is never reached. *)
Lemma all_values_unreachable (input_ : string) :
  output (parseInput input_) <>
    "Error: All values were provided. Nothing to calculate.".
Proof.
  destruct (parseInput_never_raises input_) as [_ H].
  destruct (parseInputTry input_) as [r|e].
  - destruct H as [-> Hs]. destruct Hs; discriminate.
  - destruct H as (msg & _ & Hf & -> & _). destruct Hf; discriminate.
Qed.

(** C3 (evaluation of the code). On "500kbps 00:02:00 10MB", which
    supplies all three of bit rate, duration and file size, the output of
    [parseInput] is the message of the parameter count, not "Error: All
    values were provided. Nothing to calculate.". *)
Theorem parseInput_all_three :
  parseInput "500kbps 00:02:00 10MB" =
    {| input := "500kbps 00:02:00 10MB";
       output := "Error: Invalid input. Provide at least two parameters to calculate the missing value." |}.
Proof. vm_compute. reflexivity. Qed.

(** C4 (evaluation of the code). The token "700MiB" matches no pattern of
    [regexes]; [parseFileSize] reads "1KiB", "1MiB", "1GiB" and "1TiB" as
    one byte each; and [parseInput "700MiB 2h"] reports an unknown
    token. *)
Theorem binary_units_unsupported :
  classify regexes "700MiB" = None /\
  Forall (fun token => parseFileSize token = Ok 1)
    ["1KiB"; "1MiB"; "1GiB"; "1TiB"] /\
  parseInput "700MiB 2h" =
    {| input := "700MiB 2h"; output := "Error: Unknown tokens: 700MiB" |}.
Proof.
  split; [vm_compute; reflexivity|]. split; [|vm_compute; reflexivity].
  repeat constructor; vm_compute; reflexivity.
Qed.

(** A token without a colon never parses to [null]: [hmsRegex] matches
    the empty string, so the [if (!match)] of [parseDuration] is dead. *)
Lemma parseDuration_not_null (duration : string) :
  JsString.includes ":" duration = false ->
  exists seconds, parseDuration duration = Some seconds.
Proof.
  intros H. unfold parseDuration. rewrite H.
  destruct (hmsRegex_matches duration) as [m ->]. eauto.
Qed.

(** C5 (evaluation of the code). [parseDuration] returns 3661 on
    "01:01:01" and 5420 on "1h30m20s"; on "invalid" it returns 0, not
    [null]. *)
Theorem parseDuration_examples :
  parseDuration "01:01:01" = Some 3661 /\
  parseDuration "1h30m20s" = Some 5420 /\
  parseDuration "invalid" = Some 0.
Proof. repeat split; vm_compute; reflexivity. Qed.

(** C6. When some token of the line matches no pattern, [parseInput]
    returns "Error: Unknown tokens: " followed by the unmatched tokens
    in input order, joined by ", ", whatever else the line supplies. *)
Theorem unknown_tokens_reported (input_ : string) :
  (exists token, In token (tokens input_) /\ classify regexes token = None) ->
  parseInput input_ =
    {| input := input_;
       output := "Error: Unknown tokens: " +:+
                 JsString.join ", " (List.filter unmatched (tokens input_)) |}.
Proof.
  intros (token & Hin & Hc).
  unfold parseInput, parseInputTry. rewrite unknownTokens_spec.
  assert (Hf : In token (List.filter unmatched (tokens input_))).
  { apply filter_In. split; [assumption|]. unfold unmatched. now rewrite Hc. }
  destruct (List.filter unmatched (tokens input_)); [destruct Hf|].
  reflexivity.
Qed.

Lemma unknown_tokens_reported_witness :
  ((exists token, In token (tokens "10X 20Y")
                  /\ classify regexes token = None) /\
   parseInput "10X 20Y" =
     {| input := "10X 20Y"; output := "Error: Unknown tokens: 10X, 20Y" |}) /\
  ((exists token, In token (tokens "700MB 2h what")
                  /\ classify regexes token = None) /\
   parseInput "700MB 2h what" =
     {| input := "700MB 2h what"; output := "Error: Unknown tokens: what" |}).
Proof.
  split.
  - assert (H : exists token, In token (tokens "10X 20Y")
                              /\ classify regexes token = None).
    { exists "10X"%string. split; vm_compute; auto. }
    split; [exact H|].
    exact (unknown_tokens_reported "10X 20Y" H).
  - assert (H : exists token, In token (tokens "700MB 2h what")
                              /\ classify regexes token = None).
    { exists "what"%string. split; vm_compute; auto. }
    split; [exact H|].
    exact (unknown_tokens_reported "700MB 2h what" H).
Defined.

(** C7 (evaluation of the code). [parseInput "700MB 2h"] gives
    "Bit rate: 778 kbps"; [parseInput "777.77777kbps 2h"] gives
    "File size: 5.60 GB", not "File size: 700 MB": [calculateFileSize]
    renders the number of bits as if it were the number of bytes. *)
Theorem calculation_examples :
  output (parseInput "700MB 2h") = "Bit rate: 778 kbps" /\
  output (parseInput "777.77777kbps 2h") = "File size: 5.60 GB".
Proof. split; vm_compute; reflexivity. Qed.




(** C9 (counterexample). A tab between two parameters does not separate
    them: "700MB<TAB>2h" is a single token, which no pattern matches,
    while "700MB 2h" holds the two tokens "700MB" and "2h". *)
Lemma tab_is_not_a_separator :
  tokens ("700MB" +:+ String "009" "2h") = ["700MB" +:+ String "009" "2h"] /\
  tokens "700MB 2h" = ["700MB"; "2h"] /\
  output (parseInput ("700MB" +:+ String "009" "2h"))
    = "Error: Unknown tokens: " +:+ ("700MB" +:+ String "009" "2h") /\
  output (parseInput "700MB 2h") = "Bit rate: 778 kbps".
Proof. repeat split; vm_compute; reflexivity. Qed.

(** C9 (amended). The tokenizer splits the line on the space character
    only: its tokens are the trimmed fragments between spaces that are
    not empty and do not begin with '/'. Hence the tokens of two lines
    joined by a space are the tokens of the first followed by those of
    the second (any number of spaces separates as one does), and a line
    without a space holds at most one token, its trimmed text.
    [parseInputString] classifies exactly these tokens: [unknownTokens]
    lists the unmatched ones in input order, and each key of [parsed]
    holds the last token filed under it. *)
Theorem tokenizer_splits_on_spaces :
  (forall input_ token,
      In token (tokens input_) <->
      (exists fragment,
          In fragment (JsString.split " " input_) /\
          token = JsString.trim fragment) /\
      token <> EmptyString /\ JsString.startsWith "/" token = false) /\
  (forall a b, tokens (a +:+ " " +:+ b) = tokens a ++ tokens b) /\
  (forall input_,
      JsString.includes " " input_ = false ->
      tokens input_ = [JsString.trim input_] \/ tokens input_ = []) /\
  (forall input_,
      unknownTokens (parseInputString input_)
      = List.filter unmatched (tokens input_)) /\
  (forall input_ key,
      parsed (parseInputString input_) !! key
      = last (List.filter (matches key) (tokens input_))).
Proof.
  split; [|split; [|split; [|split]]].
  - intros input_ token. unfold tokens.
    rewrite filter_In, in_map_iff, andb_true_iff, negb_true_iff, Nat.ltb_lt.
    split.
    + intros [(fragment & <- & Hin) [Hlen Hs]]. repeat split; eauto.
      intros E. rewrite E in Hlen. cbn in Hlen. lia.
    + intros [(fragment & Hin & ->) [Hne Hs]]. repeat split; eauto.
      destruct (JsString.trim fragment); [congruence|cbn; lia].
  - apply tokens_app.
  - intros input_ H. unfold tokens.
    rewrite (split_without_separator " " input_ H). cbn [map List.filter].
    destruct (_ && _); auto.
  - apply unknownTokens_spec.
  - apply parsed_spec.
Qed.

(** A duration token that [parseDuration] reads as a falsy value ([null],
    0 or [NaN]) fails the check [if (!durationInSeconds)]. *)
Lemma falsy_duration_rejected (input_ d : string) :
  unknownTokens (parseInputString input_) = [] ->
  parsed (parseInputString input_) !! "duration" = Some d ->
  truthyNumber (parseDuration d) = false ->
  hasKey (parsed (parseInputString input_)) "fileSize"
    = negb (hasKey (parsed (parseInputString input_)) "bitRate") ->
  parseInput input_ =
    {| input := input_; output := "Error: Invalid duration format " +:+ d |}.
Proof.
  intros Hu Hd Ht Hx. unfold parseInput, parseInputTry.
  rewrite Hu. cbn [length Nat.ltb Nat.leb].
  unfold requiredKeys, hasKey in *. cbn [List.filter]. rewrite Hd.
  destruct (parsed (parseInputString input_) !! "bitRate"),
    (parsed (parseInputString input_) !! "fileSize");
    cbn in Hx; try discriminate Hx; cbn [negb length Nat.eqb];
    rewrite Ht; reflexivity.
Qed.

(** A key is in [parsed] exactly when some token of the line is filed
    under it. *)
Lemma hasKey_spec (input_ key : string) :
  hasKey (parsed (parseInputString input_)) key
  = existsb (matches key) (tokens input_).
Proof.
  unfold hasKey. rewrite parsed_spec.
  induction (tokens input_) as [|t l IH]; [reflexivity|].
  cbn [List.filter existsb]. destruct (matches key t); cbn [orb].
  - destruct (last (t :: List.filter (matches key) l)) eqn:E; [reflexivity|].
    apply last_None in E. discriminate E.
  - exact IH.
Qed.

(** The text of a caught [Error] is not a computed result. *)
Lemma error_not_success (msg : string) :
  ~ Success (errorToString (Error msg)).
Proof. destruct msg; intros H; inversion H. Qed.

(** A line whose duration reads as a falsy value throws on every path. *)
Lemma falsy_duration_unused (input_ d : string) :
  parsed (parseInputString input_) !! "duration" = Some d ->
  truthyNumber (parseDuration d) = false ->
  ~ Success (output (parseInput input_)).
Proof.
  intros Hd Ht. unfold parseInput, parseInputTry.
  destruct (0 <? length _)%nat; [apply error_not_success|].
  destruct (negb _); [apply error_not_success|].
  rewrite Hd, Ht. cbn [negb bind]. apply error_not_success.
Qed.

(** C10 (counterexample). The token "0s" is a duration that reads as
    zero seconds, and "10MB" is a file size. On the line "0s 10MB foo" the
    unknown token is reported, not the duration; on the line
    "0s 2h 10MB" the later duration token "2h" replaces "0s" and the bit
    rate is calculated. *)
Lemma zero_duration_not_reported :
  classify regexes "0s" = Some "duration" /\
  parseDuration "0s" = Some 0 /\
  classify regexes "10MB" = Some "fileSize" /\
  tokens "0s 10MB foo" = ["0s"; "10MB"; "foo"] /\
  output (parseInput "0s 10MB foo") = "Error: Unknown tokens: foo" /\
  tokens "0s 2h 10MB" = ["0s"; "2h"; "10MB"] /\
  output (parseInput "0s 2h 10MB") = "Bit rate: 11.1 kbps".
Proof. repeat split; vm_compute; reflexivity. Qed.

(** C10 (amended). Let the last duration token of a line be [d], and let
    [parseDuration] read it as zero seconds. If every token of the line
    is matched by a pattern and the line supplies exactly one of file
    size and bit rate, [parseInput] returns "Error: Invalid duration
    format " followed by [d], as it does for a duration token that
    [parseDuration] cannot read. Whatever else the line holds, its
    output is not a computed result: a zero duration is never used in a
    calculation. *)
Theorem zero_duration_rejected (input_ d : string) (z : float) :
  last (List.filter (matches "duration") (tokens input_)) = Some d ->
  parseDuration d = Some z ->
  PrimFloat.is_zero z = true ->
  (List.filter unmatched (tokens input_) = [] ->
   existsb (matches "fileSize") (tokens input_)
     = negb (existsb (matches "bitRate") (tokens input_)) ->
   parseInput input_ =
     {| input := input_;
        output := "Error: Invalid duration format " +:+ d |}) /\
  ~ Success (output (parseInput input_)).
Proof.
  intros Hd Hp Hz. rewrite <- parsed_spec in Hd.
  assert (Ht : truthyNumber (parseDuration d) = false).
  { rewrite Hp. cbn [truthyNumber]. unfold JsNumber.truthy. now rewrite Hz. }
  split.
  - intros Hu Hx. rewrite <- unknownTokens_spec in Hu.
    rewrite <- !hasKey_spec in Hx.
    now apply falsy_duration_rejected.
  - now apply (falsy_duration_unused input_ d).
Qed.

Lemma zero_duration_rejected_witness :
  parseInput "0s 10MB" =
    {| input := "0s 10MB"; output := "Error: Invalid duration format 0s" |} /\
  parseInput "00:00 1Mbps" =
    {| input := "00:00 1Mbps";
       output := "Error: Invalid duration format 00:00" |} /\
  ~ Success (output (parseInput "2h 0s 10MB foo")).
Proof.
  split; [|split].
  - refine (proj1 (zero_duration_rejected "0s 10MB" "0s" 0 _ _ _) _ _);
      vm_compute; reflexivity.
  - refine (proj1 (zero_duration_rejected "00:00 1Mbps" "00:00" 0 _ _ _) _ _);
      vm_compute; reflexivity.
  - refine (proj2 (zero_duration_rejected "2h 0s 10MB foo" "0s" 0 _ _ _));
      vm_compute; reflexivity.
Defined.

End Claims.

(** * Further properties *)
(** ** More on the unit parsers *)

Section DurationFacts.
Import Lib Outcome Text.
Local Open Scope float_scope.

Lemma includes_app (sep : ascii) (a b : string) :
  JsString.includes (String sep EmptyString) (a +:+ b)
  = JsString.includes (String sep EmptyString) a
    || JsString.includes (String sep EmptyString) b.
Proof.
  induction a as [|c a IH].
  - change (EmptyString +:+ b) with b. cbn [JsString.includes].
    unfold JsString.startsWith at 1. cbn [JsString.stripPrefix orb].
    reflexivity.
  - change (String c a +:+ b) with (String c (a +:+ b)).
    cbn [JsString.includes]. rewrite IH.
    unfold JsString.startsWith. cbn [JsString.stripPrefix].
    destruct (Ascii.eqb sep c); cbn [orb]; reflexivity.
Qed.

Lemma includes_separator (sep : ascii) (b : string) :
  JsString.includes (String sep EmptyString) (String sep b) = true.
Proof.
  cbn [JsString.includes]. unfold JsString.startsWith.
  cbn [JsString.stripPrefix]. now rewrite Ascii.eqb_refl.
Qed.

(** A string holds the separator when it splits in two parts at least. *)
Lemma includes_split (sep : ascii) (s : string) :
  JsString.includes (String sep EmptyString) s = true ->
  (2 <= length (JsString.split sep s))%nat.
Proof.
  induction s as [|c s IH]; cbn [JsString.includes JsString.split].
  - discriminate.
  - unfold JsString.startsWith. cbn [JsString.stripPrefix].
    rewrite Ascii.eqb_sym. destruct (Ascii.eqb c sep).
    + intros _. pose proof (split_not_nil sep s).
      destruct (JsString.split sep s); [congruence|cbn; lia].
    + cbn [orb]. intros H. specialize (IH H).
      destruct (JsString.split sep s); cbn in *; lia.
  Qed.

(** X2. [parseDuration] returns [null] exactly for the tokens with three
    colons or more. *)
Theorem parseDuration_null (duration : string) :
  parseDuration duration = None <->
  (3 < length (JsString.split ":" duration))%nat.
Proof.
  unfold parseDuration.
  destruct (JsString.includes ":" duration) eqn:Hi.
  - apply includes_split in Hi.
    destruct (JsString.split ":" duration) as [|a [|b [|c [|d l]]]];
      cbn [map length] in *; split; intros H;
      try discriminate; try lia; reflexivity.
  - rewrite (split_without_separator _ _ Hi).
    destruct (hmsRegex_matches duration) as [m ->].
    split; [discriminate|cbn; lia].
Qed.

(** X3. With two parts, [parseDuration] is minutes and seconds; with
    three, hours, minutes and seconds; each part is read by [Number] and
    none is checked. *)
Theorem parseDuration_colons (h m s : string) :
  JsString.includes ":" h = false ->
  JsString.includes ":" m = false ->
  JsString.includes ":" s = false ->
  parseDuration (m +:+ ":" +:+ s)
    = Some (JsNumber.ofString m * 60 + JsNumber.ofString s) /\
  parseDuration (h +:+ ":" +:+ m +:+ ":" +:+ s)
    = Some (JsNumber.ofString h * 3600 + JsNumber.ofString m * 60
            + JsNumber.ofString s).
Proof.
  intros Hh Hm Hs. unfold parseDuration.
  change (":" +:+ s) with (String ":" s).
  change (":" +:+ m +:+ String ":" s) with (String ":" (m +:+ String ":" s)).
  rewrite !includes_app, !includes_separator, !orb_true_r.
  rewrite !split_app, (split_without_separator _ _ Hh),
    (split_without_separator _ _ Hm), (split_without_separator _ _ Hs).
  split; reflexivity.
Qed.

Lemma parseDuration_colons_witness :
  parseDuration "90:30" = Some 5430 /\
  parseDuration "99:99:99" = Some 362439.
Proof.
  destruct (parseDuration_colons "99" "90" "30") as [H1 _];
    [reflexivity..|].
  destruct (parseDuration_colons "99" "99" "99") as [_ H2];
    [reflexivity..|].
  split.
  - exact H1.
  - exact H2.
Defined.

End DurationFacts.

Section FileSizeFacts.
Import RegExp Lib Outcome Text.
Local Open Scope float_scope.

Lemma rmatch_Seq ic (r1 r2 : regex) (k : cont) pos s c :
  rmatch ic (Seq r1 r2) k pos s c
  = rmatch ic r1 (fun p s' c' => rmatch ic r2 k p s' c') pos s c.
Proof. reflexivity. Qed.

Lemma rmatch_Grp ic (i : nat) (r : regex) (k : cont) pos s c :
  rmatch ic (Grp i r) k pos s c
  = rmatch ic r
      (fun p s' c' => k p s' (<[i := String.substring 0 (p - pos) s]> c'))
      pos s c.
Proof. reflexivity. Qed.

Lemma rmatch_Digits ic (k : cont) pos s c :
  rmatch ic Digits k pos s c = matchDigits k pos s c.
Proof. reflexivity. Qed.

(** An optional pattern before a continuation that always succeeds. *)
Lemma rmatch_opt_total ic (r : regex) (k : cont) pos s c :
  (forall p s' c', is_Some (k p s' c')) ->
  is_Some (rmatch ic (Opt r) k pos s c).
Proof.
  intros Hk. cbn [rmatch]. destruct (rmatch ic r k pos s c); [eauto|apply Hk].
Qed.

Lemma matchDigits_total (k : cont) pos a s c :
  JsString.isDigit a = true ->
  (forall p s' c', is_Some (k p s' c')) ->
  is_Some (matchDigits k pos (String a s) c).
Proof.
  intros Ha Hk. cbn [matchDigits]. rewrite Ha.
  destruct (matchDigits k (S pos) s c); [eauto|apply Hk].
Qed.

Lemma sizeRegex_at_digit (k : cont) pos a s c :
  JsString.isDigit a = true ->
  (forall p s' c', is_Some (k p s' c')) ->
  is_Some (rmatch true sizeRegex k pos (String a s) c).
Proof.
  intros Ha Hk. unfold sizeRegex. cbn [seqs].
  rewrite rmatch_Seq, rmatch_Grp, rmatch_Seq, rmatch_Digits.
  apply matchDigits_total; [assumption|]. intros p s' c'.
  apply rmatch_opt_total. intros p1 s1 c1.
  rewrite rmatch_Grp, rmatch_Seq.
  apply rmatch_opt_total. intros p2 s2 c2.
  apply rmatch_opt_total. intros p3 s3 c3. apply Hk.
Qed.

Lemma sizeRegex_needs_digit (k : cont) pos s c :
  is_Some (rmatch true sizeRegex k pos s c) ->
  exists a s', s = String a s' /\ JsString.isDigit a = true.
Proof.
  unfold sizeRegex. cbn [seqs].
  rewrite rmatch_Seq, rmatch_Grp, rmatch_Seq, rmatch_Digits.
  destruct s as [|a s']; cbn [matchDigits].
  - intros [? [=]].
  - destruct (JsString.isDigit a) eqn:Ha; [intros _; eauto|intros [? [=]]].
Qed.

Lemma execFrom_sizeRegex (s : string) :
  forall pos, is_Some (execFrom true sizeRegex pos s) <-> hasDigit s = true.
Proof.
  induction s as [|a s IH]; intros pos; cbn [execFrom hasDigit].
  - destruct (rmatch _ _ _ _ _ _) eqn:E.
    + assert (H : is_Some (rmatch true sizeRegex
               (fun p _ c => Some (<[0%nat := String.substring 0 (p - pos) EmptyString]> c))
               pos EmptyString ∅)) by (rewrite E; eauto).
      apply sizeRegex_needs_digit in H as (? & ? & [=] & _).
    + split; [intros [? [=]]|discriminate].
  - destruct (JsString.isDigit a) eqn:Ha; cbn [orb].
    + destruct (sizeRegex_at_digit
                  (fun p _ c => Some (<[0%nat := String.substring 0 (p - pos) (String a s)]> c))
                  pos a s ∅ Ha) as [m ->]; [intros ? ? ?; eauto|].
      split; eauto.
    + destruct (rmatch _ _ _ _ _ _) eqn:E.
      * assert (H : is_Some (rmatch true sizeRegex
               (fun p _ c => Some (<[0%nat := String.substring 0 (p - pos) (String a s)]> c))
               pos (String a s) ∅)) by (rewrite E; eauto).
        apply sizeRegex_needs_digit in H as (? & ? & [= <- _] & Hd).
        congruence.
      * apply IH.
Qed.

Lemma parseFileSize_outcome (fileSize : string) :
  match parseFileSize fileSize with
  | Ok _ => hasDigit fileSize = true
  | Throw e => e = Error "Invalid file size format." /\ hasDigit fileSize = false
  end.
Proof.
  pose proof (execFrom_sizeRegex fileSize 0) as H. fold (exec true sizeRegex fileSize) in H.
  destruct (parseFileSize fileSize) as [x|e] eqn:E.
  - unfold parseFileSize in E.
    destruct (exec true sizeRegex fileSize); [|discriminate E].
    apply H. eauto.
  - split; [eapply parseFileSize_throws, E|].
    unfold parseFileSize in E.
    destruct (exec true sizeRegex fileSize) as [m|] eqn:Em.
    + destruct (sizeRegex_unit _ _ Em) as [u Hu]. rewrite Hu in E. discriminate E.
    + destruct (hasDigit fileSize); [|reflexivity].
      destruct H as [_ H]. destruct (H eq_refl) as [? [=]].
Qed.

(** X7. [parseFileSize] accepts every string that holds a decimal digit,
    and fails, with "Invalid file size format.", on the others only. *)
Theorem parseFileSize_accepts (fileSize : string) :
  match parseFileSize fileSize with
  | Ok _ => hasDigit fileSize = true
  | Throw e => e = Error "Invalid file size format." /\ hasDigit fileSize = false
  end.
Proof. exact (parseFileSize_outcome fileSize). Qed.

End FileSizeFacts.

Section UnitFacts.
Import RegExp Lib Outcome Text.
Local Open Scope float_scope.

Lemma string_app_assoc (a b c : string) : (a +:+ b) +:+ c = a +:+ (b +:+ c).
Proof.
  induction a as [|x a IH]; [reflexivity|].
  change ((String x a +:+ b) +:+ c) with (String x ((a +:+ b) +:+ c)).
  now rewrite IH.
Qed.

Lemma string_length_app (a b : string) :
  String.length (a +:+ b) = (String.length a + String.length b)%nat.
Proof.
  induction a as [|x a IH]; [reflexivity|].
  change (String x a +:+ b) with (String x (a +:+ b)).
  cbn [String.length]. now rewrite IH.
Qed.

Lemma substring_prefix (a b : string) :
  String.substring 0 (String.length a) (a +:+ b) = a.
Proof.
  induction a as [|x a IH].
  - destruct b; reflexivity.
  - change (String x a +:+ b) with (String x (a +:+ b)).
    cbn [String.length String.substring]. now rewrite IH.
Qed.

Lemma substring_whole (a : string) :
  String.substring 0 (String.length a) a = a.
Proof.
  induction a as [|x a IH]; [reflexivity|].
  cbn [String.length String.substring]. now rewrite IH.
Qed.

Lemma matchDigits_no_digit (k : cont) pos s c :
  startsWithDigit s = false -> matchDigits k pos s c = None.
Proof.
  destruct s as [|a s]; [reflexivity|]. cbn [startsWithDigit matchDigits].
  now intros ->.
Qed.

(** [\d+] takes the whole run of digits when what follows then matches. *)
Lemma matchDigits_greedy (k : cont) (ds rest : string) :
  forall pos c res,
    isDigits ds = true ->
    startsWithDigit rest = false ->
    k (pos + String.length ds)%nat rest c = Some res ->
    matchDigits k pos (ds +:+ rest) c = Some res.
Proof.
  induction ds as [|d ds IH]; intros pos c res Hd Hr Hk; [discriminate|].
  unfold isDigits in Hd. cbn [JsString.isEmpty negb allDigits andb] in Hd.
  apply andb_prop in Hd as [Hd Hds].
  change (String d ds +:+ rest) with (String d (ds +:+ rest)).
  cbn [matchDigits String.length] in *. rewrite Hd.
  destruct ds as [|d' ds].
  - change (EmptyString +:+ rest) with rest in *.
    rewrite (matchDigits_no_digit _ _ _ _ Hr).
    now replace (S pos) with (pos + 1)%nat by lia.
  - rewrite (IH (S pos) c res); [reflexivity| |assumption|].
    + unfold isDigits. cbn [JsString.isEmpty negb andb]. exact Hds.
    + now replace (S pos + String.length (String d' ds))%nat
        with (pos + S (String.length (String d' ds)))%nat by lia.
Qed.

Lemma sameChar_point ic (a : ascii) :
  sameChar ic "." a = Ascii.eqb a ".".
Proof.
  destruct ic, a as [[] [] [] [] [] [] [] []]; reflexivity.
Qed.

Lemma endsNumber_no_digit (rest : string) :
  endsNumber rest = true -> startsWithDigit rest = false.
Proof.
  destruct rest as [|a rest]; [reflexivity|]. cbn [endsNumber startsWithDigit].
  now destruct (JsString.isDigit a).
Qed.

Lemma endsNumber_no_point ic (rest : string) :
  endsNumber rest = true -> matchLit ic "." rest = None.
Proof.
  destruct rest as [|a rest]; [reflexivity|]. cbn [endsNumber matchLit].
  rewrite sameChar_point. destruct (Ascii.eqb a "."); [|reflexivity].
  now rewrite andb_false_r.
Qed.

(** The pattern [decimal] takes a whole number when what follows then
    matches. *)
Lemma rmatch_decimal ic (n rest : string) (k : cont) pos c res :
  Decimal n ->
  endsNumber rest = true ->
  k (pos + String.length n)%nat rest c = Some res ->
  rmatch ic decimal k pos (n +:+ rest) c = Some res.
Proof.
  intros Hn Hr Hk. unfold decimal. rewrite rmatch_Seq, rmatch_Digits.
  destruct Hn as [ds Hds|a b Ha Hb].
  - apply matchDigits_greedy; [assumption|now apply endsNumber_no_digit|].
    cbn [rmatch]. now rewrite (endsNumber_no_point _ _ Hr).
  - rewrite string_app_assoc.
    change (("." +:+ b) +:+ rest) with (String "." (b +:+ rest)).
    apply matchDigits_greedy; [assumption|reflexivity|].
    cbn [rmatch matchLit]. rewrite sameChar_point. cbn [Ascii.eqb Bool.eqb].
    rewrite (matchDigits_greedy k b rest _ c res Hb);
      [reflexivity|now apply endsNumber_no_digit|].
    rewrite !string_length_app in Hk. cbn [String.length] in *.
    now replace (pos + String.length a + 1 + String.length b)%nat
      with (pos + (String.length a + S (String.length b)))%nat by lia.
Qed.

Lemma execFrom_first ic (r : regex) pos s res :
  rmatch ic r (fun p _ c => Some (<[0%nat := String.substring 0 (p - pos) s]> c))
    pos s ∅ = Some res ->
  execFrom ic r pos s = Some res.
Proof. intros H. destruct s; cbn [execFrom]; now rewrite H. Qed.

(** What [rateRegex] captures in a number followed by a unit. *)
Lemma rateRegex_exec (n u : string) :
  Decimal n ->
  In u ["bps"; "kbps"; "Mbps"; "Gbps"; "k"; "M"; "G"] ->
  exec false rateRegex (n +:+ u)
  = Some (<[0%nat := n +:+ u]> (<[2%nat := u]> (<[1%nat := n]> ∅))).
Proof.
  intros Hn Hu. apply execFrom_first. unfold rateRegex. cbn [seqs].
  rewrite rmatch_Seq.
  change (rmatch false Bol ?k 0 ?s ?c) with (k 0%nat s c). cbv beta.
  rewrite rmatch_Seq, rmatch_Grp.
  assert (Hsub : forall k, k = String.length u ->
            String.substring 0 (String.length n + k) (n +:+ u) = n +:+ u).
  { intros k ->. rewrite <- string_length_app. apply substring_whole. }
  cbn [In] in Hu.
  repeat destruct Hu as [<-|Hu]; try destruct Hu;
    (apply rmatch_decimal; [assumption|reflexivity|]);
    cbn; rewrite ?Nat.sub_0_r, substring_prefix, <- ?Nat.add_assoc, Hsub
      by reflexivity;
    repeat match goal with
           | |- context [(String.length n + ?k - String.length n)%nat] =>
               replace (String.length n + k - String.length n)%nat
                 with k by lia
           end;
    reflexivity.
Qed.

(** X9. The units of [parseBitRate], for every number [n]: [k] and [kbps]
    multiply by 1e3, [M] and [Mbps] by 1e6, [G] and [Gbps] by 1e9, and
    [bps], which the classifier accepts, is refused. *)
Theorem parseBitRate_units (n : string) :
  Decimal n ->
  Forall (fun '(u, multiplier) =>
            parseBitRate (n +:+ u) = Ok (JsNumber.parseFloat n * multiplier))
    [("k", 1e3); ("kbps", 1e3); ("M", 1e6); ("Mbps", 1e6);
     ("G", 1e9); ("Gbps", 1e9)] /\
  parseBitRate (n +:+ "bps") = Throw (Error "Unsupported bit rate unit.").
Proof.
  intros Hn.
  assert (H : forall u, In u ["bps"; "kbps"; "Mbps"; "Gbps"; "k"; "M"; "G"] ->
            parseBitRate (n +:+ u)
            = (let value := JsNumber.parseFloat n in
               let unit := JsString.toLowerCase u in
               if String.eqb unit "k" || String.eqb unit "kb" || String.eqb unit "kbps"
               then Ok (value * 1e3)
               else if String.eqb unit "m" || String.eqb unit "mb"
                       || String.eqb unit "mbps"
               then Ok (value * 1e6)
               else if String.eqb unit "g" || String.eqb unit "gb"
                       || String.eqb unit "gbps"
               then Ok (value * 1e9)
               else Throw (Error "Unsupported bit rate unit."))).
  { intros u Hu. unfold parseBitRate. rewrite (rateRegex_exec n u Hn Hu).
    rewrite (lookup_insert_ne _ 0%nat 1%nat), (lookup_insert_ne _ 2%nat 1%nat),
      lookup_insert_eq, (lookup_insert_ne _ 0%nat 2%nat), lookup_insert_eq by lia.
    reflexivity. }
  split.
  - repeat constructor; rewrite H by (cbn; tauto); reflexivity.
  - rewrite H by (cbn; tauto). reflexivity.
Qed.

Lemma parseBitRate_units_witness :
  parseBitRate "2.5Mbps" = Ok 2500000 /\
  parseBitRate "500bps" = Throw (Error "Unsupported bit rate unit.").
Proof.
  assert (H1 : Decimal "2.5") by (apply (Fraction "2" "5"); reflexivity).
  assert (H2 : Decimal "500") by (apply Integer; reflexivity).
  split.
  - apply (proj1 (List.Forall_forall _ _)
             (proj1 (parseBitRate_units "2.5" H1)) ("Mbps", 1e6)).
    cbn. auto 10.
  - destruct (parseBitRate_units "500" H2) as [_ H]. exact H.
Defined.

End UnitFacts.

Section SizeUnitFacts.
Import RegExp Lib Outcome Text.
Local Open Scope float_scope.

(** The first group of [sizeRegex] takes a whole number; its fractional
    part, when there is one, is the second group. *)
Lemma rmatch_size_number (n rest : string) (k : cont) pos c :
  Decimal n ->
  endsNumber rest = true ->
  exists c',
    (forall i, i <> 2%nat -> c' !! i = c !! i) /\
    forall res,
      k (pos + String.length n)%nat rest c' = Some res ->
      rmatch true (Seq Digits (Opt (Grp 2 (Seq (Lit ".") Digits))))
        k pos (n +:+ rest) c = Some res.
Proof.
  intros Hn Hr. destruct Hn as [ds Hds|a b Ha Hb].
  - exists c. split; [reflexivity|]. intros res Hk.
    rewrite rmatch_Seq, rmatch_Digits.
    apply matchDigits_greedy; [assumption|now apply endsNumber_no_digit|].
    cbn [rmatch]. now rewrite (endsNumber_no_point _ _ Hr).
  - exists (<[2%nat := "." +:+ b]> c). split.
    { intros i Hi. now rewrite lookup_insert_ne. }
    intros res Hk. rewrite rmatch_Seq, rmatch_Digits, string_app_assoc.
    change (("." +:+ b) +:+ rest) with (String "." (b +:+ rest)).
    apply matchDigits_greedy; [assumption|reflexivity|].
    cbn [rmatch matchLit]. rewrite sameChar_point. cbn [Ascii.eqb Bool.eqb].
    rewrite (matchDigits_greedy _ b rest _ c res Hb);
      [reflexivity|now apply endsNumber_no_digit|].
    replace (pos + String.length a + String.length "." + String.length b
             - (pos + String.length a))%nat
      with (String.length (String "." b)) by (cbn [String.length]; lia).
    change (String "." (b +:+ rest)) with (String "." b +:+ rest).
    rewrite substring_prefix.
    rewrite !string_length_app in Hk. cbn [String.length] in *.
    now replace (pos + String.length a + 1 + String.length b)%nat
      with (pos + (String.length a + S (String.length b)))%nat by lia.
Qed.

Local Ltac size_unit n Hn :=
  match goal with
  | |- parseFileSize (n +:+ ?u) = _ =>
      destruct (rmatch_size_number n u
                  (fun p s' c' =>
                     rmatch true (Grp 3 (Seq (Opt (Cls "TGMK")) (Opt (Lit "B"))))
                       (fun p0 _ c0 =>
                          Some (<[0%nat := String.substring 0 (p0 - 0) (n +:+ u)]> c0))
                       p s' (<[1%nat := String.substring 0 (p - 0) (n +:+ u)]> c'))
                  0%nat ∅ Hn eq_refl) as (c' & Hc' & Hm);
      unfold parseFileSize, exec;
      erewrite execFrom_first;
      [| unfold sizeRegex; cbn [seqs]; rewrite rmatch_Seq, rmatch_Grp;
         apply Hm; cbn; reflexivity ];
      rewrite (lookup_insert_ne _ 0%nat 1%nat),
        (lookup_insert_ne _ 3%nat 1%nat), lookup_insert_eq,
        (lookup_insert_ne _ 0%nat 3%nat), lookup_insert_eq by lia;
      rewrite ?Nat.sub_0_r, substring_prefix, <- ?Nat.add_succ_r;
      repeat match goal with
             | |- context [(String.length n + ?k - String.length n)%nat] =>
                 replace (String.length n + k - String.length n)%nat
                   with k by lia
             | |- context [(S (String.length n) - String.length n)%nat] =>
                 replace (S (String.length n) - String.length n)%nat
                   with 1%nat by lia
             | |- context [(String.length n - String.length n)%nat] =>
                 rewrite Nat.sub_diag
             end;
      reflexivity
  end.

(** X8. The units of [parseFileSize], for every number [n]: the decimal
    multipliers of TB, GB, MB and KB in either case; one byte per unit with
    B, with no unit, and with KiB, MiB, GiB and TiB, of which only the
    first letter is read. *)
Theorem parseFileSize_units (n : string) :
  Decimal n ->
  Forall (fun '(u, multiplier) =>
            parseFileSize (n +:+ u) = Ok (JsNumber.parseFloat n * multiplier))
    [("TB", 1e12); ("GB", 1e9); ("MB", 1e6); ("KB", 1e3); ("B", 1);
     ("tb", 1e12); ("gb", 1e9); ("mb", 1e6); ("kb", 1e3); ("b", 1);
     (EmptyString, 1);
     ("KiB", 1); ("MiB", 1); ("GiB", 1); ("TiB", 1)].
Proof.
  intros Hn. repeat (constructor; [size_unit n Hn|]). constructor.
Qed.

Lemma parseFileSize_units_witness :
  parseFileSize "1.5GB" = Ok 1500000000 /\ parseFileSize "700MiB" = Ok 700.
Proof.
  assert (H1 : Decimal "1.5") by (apply (Fraction "1" "5"); reflexivity).
  assert (H2 : Decimal "700") by (apply Integer; reflexivity).
  split.
  - apply (proj1 (List.Forall_forall _ _) (parseFileSize_units "1.5" H1)
             ("GB", 1e9)).
    cbn. auto 20.
  - apply (proj1 (List.Forall_forall _ _) (parseFileSize_units "700" H2)
             ("MiB", 1)).
    cbn. auto 20.
Defined.

End SizeUnitFacts.

Section DecimalDurationFacts.
Import RegExp Lib Outcome Text.
Local Open Scope float_scope.

Lemma canon_digit ic (d : ascii) :
  JsString.isDigit d = true -> canon ic d = d.
Proof.
  destruct ic, d as [[] [] [] [] [] [] [] []]; try discriminate; reflexivity.
Qed.

Lemma canon_not_digit ic (x : ascii) :
  JsString.isDigit x = false -> JsString.isDigit (canon ic x) = false.
Proof.
  destruct ic, x as [[] [] [] [] [] [] [] []]; try discriminate; reflexivity.
Qed.

Lemma sameChar_digit ic (x d : ascii) :
  JsString.isDigit x = false -> JsString.isDigit d = true ->
  sameChar ic x d = false.
Proof.
  intros Hx Hd. unfold sameChar. rewrite (canon_digit ic d Hd).
  destruct (Ascii.eqb_spec (canon ic x) d) as [E|]; [|reflexivity].
  apply (canon_not_digit ic) in Hx. congruence.
Qed.

(** A literal that begins with a character other than a digit does not
    match a string that begins with a digit. *)
Lemma rmatch_Lit_digit ic (x : ascii) (l s : string) (k : cont) pos c :
  JsString.isDigit x = false ->
  startsWithDigit s = true ->
  rmatch ic (Lit (String x l)) k pos s c = None.
Proof.
  intros Hx Hs. destruct s as [|d s]; [discriminate|].
  cbn [startsWithDigit] in Hs. cbn [rmatch matchLit].
  now rewrite (sameChar_digit ic x d Hx Hs).
Qed.

Lemma rmatch_Alt ic (r1 r2 : regex) (k : cont) pos s c :
  rmatch ic (Alt r1 r2) k pos s c
  = match rmatch ic r1 k pos s c with
    | Some res => Some res
    | None => rmatch ic r2 k pos s c
    end.
Proof. reflexivity. Qed.

Lemma rmatch_Opt ic (r : regex) (k : cont) pos s c :
  rmatch ic (Opt r) k pos s c
  = match rmatch ic r k pos s c with
    | Some res => Some res
    | None => k pos s c
    end.
Proof. reflexivity. Qed.

Lemma spanDigits_app (a rest : string) :
  allDigits a = true -> startsWithDigit rest = false ->
  JsNumber.spanDigits (a +:+ rest) = (a, rest).
Proof.
  intros Ha Hr. induction a as [|d a IH].
  - change (EmptyString +:+ rest) with rest.
    destruct rest as [|x rest]; [reflexivity|].
    cbn [startsWithDigit] in Hr. cbn [JsNumber.spanDigits]. now rewrite Hr.
  - cbn [allDigits] in Ha. apply andb_prop in Ha as [Hd Ha].
    change (String d a +:+ rest) with (String d (a +:+ rest)).
    cbn [JsNumber.spanDigits]. now rewrite Hd, (IH Ha).
Qed.

(** [\d+] fails when what follows fails after every digit of the run. *)
Lemma matchDigits_none (k : cont) (rest : string) :
  (forall p s c, startsWithDigit s = true -> k p s c = None) ->
  (forall p c, k p rest c = None) ->
  forall s pos c,
    snd (JsNumber.spanDigits s) = rest -> matchDigits k pos s c = None.
Proof.
  intros Hdigit Hrest. induction s as [|a s IH]; intros pos c Hs;
    [reflexivity|].
  cbn [matchDigits]. cbn [JsNumber.spanDigits] in Hs.
  destruct (JsString.isDigit a); [|reflexivity].
  destruct (JsNumber.spanDigits s) as [d r] eqn:E. cbn [snd] in *.
  rewrite (IH (S pos) c Hs).
  destruct s as [|x s']; [cbn in E; injection E as _ <-; subst rest; apply Hrest|].
  destruct (JsString.isDigit x) eqn:Hx.
  - now apply Hdigit.
  - cbn [JsNumber.spanDigits] in E. rewrite Hx in E. injection E as _ <-.
    subst rest. apply Hrest.
Qed.

Lemma allDigits_of_isDigits (a : string) :
  isDigits a = true -> allDigits a = true.
Proof. unfold isDigits. intros H. now apply andb_prop in H. Qed.

(** A group [(\d+x)], for a letter [x], does not match a run of digits
    that a point follows. *)
Lemma unit_group_blocked (i : nat) (x : ascii) (a rest : string)
    (k : cont) pos c :
  JsString.isDigit x = false -> Ascii.eqb (canon true x) "." = false ->
  allDigits a = true ->
  rmatch true (Grp i (Seq Digits (Lit (String x EmptyString)))) k pos
    (a +:+ String "." rest) c = None.
Proof.
  intros Hx Hp Ha. rewrite rmatch_Grp, rmatch_Seq, rmatch_Digits.
  apply (matchDigits_none _ (String "." rest)).
  - intros p s c' Hs. now apply rmatch_Lit_digit.
  - intros p c'. cbn [rmatch matchLit]. unfold sameChar.
    change (canon true ".") with "."%char. rewrite Hp. reflexivity.
  - now rewrite spanDigits_app.
Qed.

Lemma includes_digits (sep : ascii) (a : string) :
  JsString.isDigit sep = false -> allDigits a = true ->
  JsString.includes (String sep EmptyString) a = false.
Proof.
  intros Hsep. induction a as [|d a IH]; intros Ha; [reflexivity|].
  cbn [allDigits] in Ha. apply andb_prop in Ha as [Hd Ha].
  cbn [JsString.includes]. unfold JsString.startsWith.
  cbn [JsString.stripPrefix].
  destruct (Ascii.eqb_spec sep d) as [->|]; [congruence|].
  now rewrite (IH Ha).
Qed.

Lemma parseDuration_point (a rest : string) :
  isDigits a = true ->
  JsString.includes ":" rest = false ->
  parseDuration (a +:+ "." +:+ rest) = Some 0.
Proof.
  intros Ha Hr. apply allDigits_of_isDigits in Ha.
  change ("." +:+ rest) with (String "." rest).
  unfold parseDuration.
  rewrite includes_app, (includes_digits ":" a eq_refl Ha).
  change (String "." rest) with ("." +:+ rest) at 1.
  rewrite includes_app, Hr. cbn [orb JsString.includes].
  unfold exec.
  rewrite (execFrom_first true hmsRegex 0 _ (<[0%nat := EmptyString]> ∅)).
  - rewrite !lookup_insert_ne by lia. rewrite !lookup_empty. reflexivity.
  - unfold hmsRegex. cbn [seqs].
    rewrite rmatch_Seq, rmatch_Opt, unit_group_blocked by (assumption || reflexivity).
    rewrite rmatch_Seq, rmatch_Opt, unit_group_blocked by (assumption || reflexivity).
    rewrite rmatch_Opt, unit_group_blocked by (assumption || reflexivity).
    destruct a; reflexivity.
Qed.

(** X5. A duration with a fractional number. [parseDuration] reads every
    token that begins with digits and a point as 0 seconds: none of the
    groups of [hmsRegex] matches at the start of the token, and the
    pattern matches the empty string there. *)
Theorem parseDuration_fraction (a rest : string) :
  isDigits a = true ->
  JsString.includes ":" rest = false ->
  parseDuration (a +:+ "." +:+ rest) = Some 0.
Proof. exact (parseDuration_point a rest). Qed.

Lemma parseDuration_fraction_witness :
  parseDuration "30.5m" = Some 0 /\ parseDuration "1.5h" = Some 0.
Proof.
  split.
  - apply (parseDuration_fraction "30" "5m"); reflexivity.
  - apply (parseDuration_fraction "1" "5h"); reflexivity.
Defined.

End DecimalDurationFacts.

Section ClassifyFractionFacts.
Import RegExp Lib Outcome Text.
Local Open Scope float_scope.

(** A pattern anchored by [^] is tried at the start of the string only. *)
Lemma execFrom_anchored_later ic (r : regex) (s : string) :
  forall pos, execFrom ic (Seq Bol r) (S pos) s = None.
Proof.
  induction s as [|a s IH]; intros pos; cbn [execFrom]; rewrite rmatch_Seq;
    cbn [rmatch Nat.eqb]; [reflexivity|apply IH].
Qed.

Lemma exec_anchored ic (r : regex) (s : string) :
  exec ic (Seq Bol r) s
  = rmatch ic r (fun p _ c => Some (<[0%nat := String.substring 0 (p - 0) s]> c))
      0 s ∅.
Proof.
  unfold exec. destruct s as [|a s]; cbn [execFrom]; rewrite rmatch_Seq;
    cbn [rmatch Nat.eqb]; destruct (rmatch ic r _ 0 _ ∅); try reflexivity.
  apply execFrom_anchored_later.
Qed.

Lemma rmatch_Lit_head ic (x y : ascii) (s : string) (k : cont) pos c :
  sameChar ic x y = true ->
  rmatch ic (Lit (String x EmptyString)) k pos (String y s) c
  = k (pos + 1)%nat s c.
Proof. intros H. cbn [rmatch matchLit String.length]. now rewrite H. Qed.

Local Ltac block_digit :=
  repeat first
    [ rewrite rmatch_Seq | rewrite rmatch_Alt | rewrite rmatch_Opt
    | rewrite rmatch_Lit_digit by (reflexivity || assumption) ].

(** X6. A token made of a number with a fractional part and one of the
    units h, m and s is filed under "duration", although [parseDuration]
    reads it as 0 seconds. *)
Theorem fraction_duration_classified (a b u : string) :
  isDigits a = true -> isDigits b = true -> In u ["h"; "m"; "s"] ->
  classify regexes (a +:+ "." +:+ b +:+ u) = Some "duration" /\
  parseDuration (a +:+ "." +:+ b +:+ u) = Some 0.
Proof.
  intros Ha Hb Hu. split.
  2:{ apply parseDuration_point; [assumption|].
      rewrite includes_app, (includes_digits ":" b eq_refl (allDigits_of_isDigits b Hb)).
      cbn [In] in Hu. repeat destruct Hu as [<-|Hu]; try destruct Hu; reflexivity. }
  assert (Hus : startsWithDigit u = false /\ endsNumber u = true).
  { cbn [In] in Hu. repeat destruct Hu as [<-|Hu]; try destruct Hu; split; reflexivity. }
  destruct Hus as [Hu1 Hu2].
  unfold regexes. cbn [classify existsb seqs]. unfold test at 1.
  rewrite exec_anchored.
  assert (Hsize :
    rmatch false
      (Seq decimal
         (Seq (alts [Lit "B"; Lit "KB"; Lit "MB"; Lit "GB"; Lit "TB"]) Eol))
      (fun p _ c => Some (<[0%nat := String.substring 0 (p - 0)
                                    (a +:+ "." +:+ b +:+ u)]> c))
      0 (a +:+ "." +:+ b +:+ u) ∅ = None).
  { unfold decimal. cbn [alts]. rewrite !rmatch_Seq, rmatch_Digits.
    change ("." +:+ b +:+ u) with (String "." (b +:+ u)).
    apply (matchDigits_none _ (String "." (b +:+ u))).
    - intros p s c Hs. block_digit. reflexivity.
    - intros p c. rewrite rmatch_Opt, rmatch_Seq.
      rewrite (rmatch_Lit_head false "." ".") by reflexivity.
      rewrite rmatch_Digits, (matchDigits_none _ u).
      + reflexivity.
      + intros p' s c' Hs. block_digit. reflexivity.
      + intros p' c'. cbn [In] in Hu.
        repeat destruct Hu as [<-|Hu]; try destruct Hu; reflexivity.
      + now rewrite spanDigits_app by (assumption || now apply allDigits_of_isDigits).
    - now rewrite spanDigits_app by (reflexivity || now apply allDigits_of_isDigits). }
  rewrite Hsize. cbn [orb]. unfold test at 1. rewrite exec_anchored.
  rewrite rmatch_Seq.
  replace (a +:+ "." +:+ b +:+ u) with ((a +:+ "." +:+ b) +:+ u)
    by (now rewrite !string_app_assoc).
  erewrite rmatch_decimal; [reflexivity|now constructor|assumption|].
  cbn [In] in Hu. repeat destruct Hu as [<-|Hu]; try destruct Hu; reflexivity.
Qed.

Lemma fraction_duration_classified_witness :
  classify regexes "30.5m" = Some "duration" /\
  parseDuration "30.5m" = Some 0.
Proof.
  apply (fraction_duration_classified "30" "5" "m"); cbn; auto.
Defined.

End ClassifyFractionFacts.

Section CompositeDurationFacts.
Import RegExp Lib Outcome Text.
Local Open Scope float_scope.

Lemma digit_not_space (d : ascii) :
  JsString.isDigit d = true -> JsString.isWhiteSpace d = false.
Proof. destruct d as [[] [] [] [] [] [] [] []]; try discriminate; reflexivity. Qed.

Lemma scanSign_digit (d : ascii) (s : string) :
  JsString.isDigit d = true ->
  JsNumber.scanSign (String d s) = (false, String d s).
Proof. destruct d as [[] [] [] [] [] [] [] []]; try discriminate; reflexivity. Qed.

(** [parseInt] reads the digits a string begins with. *)
Lemma parseInt10_digits (ds rest : string) :
  isDigits ds = true -> startsWithDigit rest = false ->
  JsNumber.parseInt10 (ds +:+ rest) = JsNumber.ofZ (JsNumber.digitsValue 0 ds).
Proof.
  intros Hds Hr. unfold JsNumber.parseInt10.
  pose proof (allDigits_of_isDigits ds Hds) as Ha.
  destruct ds as [|d ds]; [discriminate|].
  cbn [allDigits] in Ha. apply andb_prop in Ha as [Hd Ha].
  change (String d ds +:+ rest) with (String d (ds +:+ rest)).
  cbn [JsString.trimStart]. rewrite (digit_not_space d Hd), (scanSign_digit d _ Hd).
  change (String d (ds +:+ rest)) with (String d ds +:+ rest).
  rewrite spanDigits_app; [reflexivity| |assumption].
  cbn [allDigits]. now rewrite Hd, Ha.
Qed.

(** A group [(\d+x)?] of [hmsRegex] before its digits and its unit. *)
Lemma unit_group_present (i : nat) (x : ascii) (ds rest : string)
    (k : cont) pos c res :
  isDigits ds = true -> JsString.isDigit x = false ->
  sameChar true x x = true ->
  k (pos + String.length ds + 1)%nat rest
    (<[i := ds +:+ String x EmptyString]> c) = Some res ->
  rmatch true (Opt (Grp i (Seq Digits (Lit (String x EmptyString))))) k pos
    (ds +:+ String x rest) c = Some res.
Proof.
  intros Hds Hx Hxx Hk. rewrite rmatch_Opt, rmatch_Grp, rmatch_Seq, rmatch_Digits.
  rewrite (matchDigits_greedy _ ds (String x rest) pos c res);
    [reflexivity|assumption|exact Hx|].
  rewrite (rmatch_Lit_head true x x) by assumption.
  replace (pos + String.length ds + 1 - pos)%nat
    with (String.length (ds +:+ String x EmptyString))
    by (rewrite string_length_app; cbn [String.length]; lia).
  replace (ds +:+ String x rest) with ((ds +:+ String x EmptyString) +:+ rest)
    by (now rewrite string_app_assoc).
  now rewrite substring_prefix.
Qed.

(** The same group before something else. *)
Lemma unit_group_absent (i : nat) (x : ascii) (s : string) (k : cont) pos c :
  JsString.isDigit x = false ->
  matchLit true (String x EmptyString) (snd (JsNumber.spanDigits s)) = None ->
  rmatch true (Opt (Grp i (Seq Digits (Lit (String x EmptyString))))) k pos s c
  = k pos s c.
Proof.
  intros Hx Hr. rewrite rmatch_Opt, rmatch_Grp, rmatch_Seq, rmatch_Digits.
  rewrite (matchDigits_none _ (snd (JsNumber.spanDigits s))); [reflexivity| | |reflexivity].
  - intros p s' c' Hs. now apply rmatch_Lit_digit.
  - intros p c'. cbn [rmatch]. now rewrite Hr.
Qed.

Lemma includes_component (digits : option string) (x : ascii) :
  wellFormed digits = true -> Ascii.eqb ":" x = false ->
  JsString.includes ":" (component digits (String x EmptyString)) = false.
Proof.
  intros Hw Hx. destruct digits as [ds|]; [|reflexivity]. cbn [component].
  rewrite includes_app, (includes_digits ":" ds eq_refl (allDigits_of_isDigits ds Hw)).
  cbn [JsString.includes orb]. unfold JsString.startsWith.
  cbn [JsString.stripPrefix]. now rewrite Hx.
Qed.

Local Ltac hms_groups :=
  repeat first
    [ rewrite rmatch_Seq
    | apply unit_group_present; [assumption|reflexivity|reflexivity|]
    | rewrite unit_group_absent
        by (reflexivity ||
            (rewrite ?spanDigits_app
               by (reflexivity || (apply allDigits_of_isDigits; assumption));
             reflexivity)) ].

Local Ltac hms_lookups :=
  repeat first
    [ rewrite lookup_insert_eq
    | rewrite lookup_insert_ne by lia
    | rewrite lookup_empty ].

(** X4. The composite durations. For digits [h], [m] and [s], each of
    which may be absent, [parseDuration] reads [<h>h<m>m<s>s] as
    hours * 3600 + minutes * 60 + seconds, an absent component counting
    for 0. *)
Theorem parseDuration_hms (h m s : option string) :
  wellFormed h = true -> wellFormed m = true -> wellFormed s = true ->
  parseDuration (component h "h" +:+ component m "m" +:+ component s "s")
  = Some (amount h * 3600 + amount m * 60 + amount s).
Proof.
  intros Hh Hm Hs. unfold parseDuration.
  rewrite !includes_app, !includes_component by (assumption || reflexivity).
  cbn [orb]. unfold exec.
  destruct h as [a|], m as [b|], s as [c|]; cbn [component wellFormed amount] in *;
    repeat change (EmptyString +:+ ?x) with x;
    rewrite ?string_app_assoc;
    repeat change ("h" +:+ ?x) with (String "h" x);
    repeat change ("m" +:+ ?x) with (String "m" x);
    repeat change ("s" +:+ ?x) with (String "s" x);
    (erewrite execFrom_first;
     [| unfold hmsRegex; cbn [seqs]; hms_groups; reflexivity ]);
    hms_lookups; cbn [orElse];
    repeat match goal with
           | |- context [JsString.isEmpty (?ds +:+ String ?x EmptyString)] =>
               replace (JsString.isEmpty (ds +:+ String x EmptyString))
                 with false by (destruct ds; reflexivity)
           end;
    rewrite ?parseInt10_digits by (assumption || reflexivity);
    reflexivity.
Qed.

Lemma parseDuration_hms_witness :
  parseDuration "1h30m20s" = Some 5420 /\ parseDuration "90m" = Some 5400.
Proof.
  split.
  - apply (parseDuration_hms (Some "1") (Some "30") (Some "20")); reflexivity.
  - apply (parseDuration_hms None (Some "90") None); reflexivity.
Defined.

End CompositeDurationFacts.

Section NormalFormFacts.
Import Lib Outcome Text.

Lemma split_parts_clean (sep : ascii) (s : string) :
  forall f, In f (JsString.split sep s) ->
            JsString.includes (String sep EmptyString) f = false.
Proof.
  induction s as [|c s IH]; intros f; cbn [JsString.split].
  - intros [<-|[]]. reflexivity.
  - destruct (Ascii.eqb c sep) eqn:Hc.
    + intros [<-|H]; [reflexivity|now apply IH].
    + pose proof (split_not_nil sep s) as Hne.
      destruct (JsString.split sep s) as [|h t]; [congruence|].
      intros [<-|H].
      * cbn [JsString.includes]. unfold JsString.startsWith.
        cbn [JsString.stripPrefix]. rewrite Ascii.eqb_sym, Hc. cbn [orb].
        apply IH. now left.
      * apply IH. now right.
Qed.

Lemma includes_trimStart (sep : ascii) (s : string) :
  JsString.includes (String sep EmptyString) s = false ->
  JsString.includes (String sep EmptyString) (JsString.trimStart s) = false.
Proof.
  induction s as [|c s IH]; [trivial|]. cbn [JsString.trimStart].
  destruct (JsString.isWhiteSpace c); [|trivial].
  cbn [JsString.includes]. intros H. apply orb_false_elim in H as [_ H].
  now apply IH.
Qed.

Lemma includes_trimEnd (sep : ascii) (s : string) :
  JsString.includes (String sep EmptyString) s = false ->
  JsString.includes (String sep EmptyString) (JsString.trimEnd s) = false.
Proof.
  induction s as [|c s IH]; [trivial|]. cbn [JsString.trimEnd].
  cbn [JsString.includes]. unfold JsString.startsWith.
  cbn [JsString.stripPrefix]. intros H. apply orb_false_elim in H as [H1 H2].
  destruct (_ && _); [reflexivity|].
  cbn [JsString.includes]. unfold JsString.startsWith.
  cbn [JsString.stripPrefix]. rewrite (IH H2).
  destruct (Ascii.eqb sep c); [discriminate H1|reflexivity].
Qed.

Lemma trimEnd_idempotent (s : string) :
  JsString.trimEnd (JsString.trimEnd s) = JsString.trimEnd s.
Proof.
  induction s as [|c s IH]; [reflexivity|]. cbn [JsString.trimEnd].
  destruct (JsString.isWhiteSpace c && JsString.isEmpty (JsString.trimEnd s))
    eqn:E; [reflexivity|].
  cbn [JsString.trimEnd]. now rewrite IH, E.
Qed.

(** A string that does not begin with white space. *)
Lemma trimStart_head (s : string) :
  match JsString.trimStart s with
  | EmptyString => True
  | String c _ => JsString.isWhiteSpace c = false
  end.
Proof.
  induction s as [|c s IH]; [exact I|]. cbn [JsString.trimStart].
  destruct (JsString.isWhiteSpace c) eqn:E; [exact IH|exact E].
Qed.

Lemma trim_idempotent (s : string) :
  JsString.trim (JsString.trim s) = JsString.trim s.
Proof.
  unfold JsString.trim. pose proof (trimStart_head s) as H.
  destruct (JsString.trimStart s) as [|c t]; [reflexivity|].
  cbn [JsString.trimEnd]. rewrite H. cbn [andb JsString.trimStart].
  rewrite H. cbn [JsString.trimEnd]. rewrite H. cbn [andb].
  now rewrite trimEnd_idempotent.
Qed.

(** Each token of a line is, as a line, that single token. *)
Lemma token_alone (line token : string) :
  In token (tokens line) -> tokens token = [token].
Proof.
  unfold tokens at 1. rewrite filter_In, in_map_iff.
  intros [(f & <- & Hf) Hkeep].
  apply split_parts_clean in Hf.
  assert (Hclean : JsString.includes " " (JsString.trim f) = false).
  { unfold JsString.trim. now apply includes_trimEnd, includes_trimStart. }
  unfold tokens. rewrite (split_without_separator " " _ Hclean).
  cbn [map List.filter]. now rewrite trim_idempotent, Hkeep.
Qed.

Lemma tokens_join (l : list string) :
  (forall t, In t l -> tokens t = [t]) ->
  tokens (JsString.join " " l) = l.
Proof.
  induction l as [|x [|y l] IH]; intros H.
  - reflexivity.
  - cbn [JsString.join]. apply H. now left.
  - change (JsString.join " " (x :: y :: l))
      with (x +:+ " " +:+ JsString.join " " (y :: l)).
    rewrite tokens_app, (H x) by now left.
    rewrite IH; [reflexivity|]. intros t Ht. apply H. now right.
Qed.

(** The output of [parseInput] is a function of what [parseInputString]
    returns. *)
Lemma output_by_parse (a b : string) :
  parseInputString a = parseInputString b ->
  output (parseInput a) = output (parseInput b).
Proof.
  intros H. unfold parseInput, parseInputTry. rewrite H.
  repeat match goal with
         | |- context [if ?c then _ else _] => destruct c; cbn [bind output]
         | |- context [match ?x with Some _ => _ | None => _ end] =>
             destruct x; cbn [bind output]
         | |- context [bind ?m _] => destruct m; cbn [bind output]
         end; reflexivity.
Qed.

(** X11. Tokenizing is idempotent. The tokens of a line, joined by single
    spaces, tokenize to themselves, and [parseInput] gives the same output
    on the line so normalized. *)
Theorem tokens_normal_form (line : string) :
  tokens (JsString.join " " (tokens line)) = tokens line /\
  output (parseInput (JsString.join " " (tokens line)))
    = output (parseInput line).
Proof.
  assert (H : tokens (JsString.join " " (tokens line)) = tokens line).
  { apply tokens_join. intros t Ht. eapply token_alone, Ht. }
  split; [exact H|].
  apply output_by_parse. unfold parseInputString. now rewrite H.
Qed.

(** X13. A line of fewer than two tokens never yields a calculation. *)
Theorem single_token_rejected (line : string) :
  (length (tokens line) < 2)%nat ->
  output (parseInput line)
    = "Error: Invalid input. Provide at least two parameters to calculate the missing value."
  \/ exists token,
       tokens line = [token] /\
       output (parseInput line) = "Error: Unknown tokens: " +:+ token.
Proof.
  intros Hlen. unfold parseInput, parseInputTry, parseInputString.
  destruct (tokens line) as [|t [|t' l]]; [| |cbn in Hlen; lia].
  - left. reflexivity.
  - cbn [fold_left]. unfold classifyToken. cbn [parsed unknownTokens].
    destruct (classify regexes t) as [key|] eqn:E; cbn [parsed unknownTokens].
    + left. cbn [app length Nat.ltb Nat.leb].
      unfold requiredKeys, hasKey. cbn [List.filter].
      rewrite !lookup_insert, !lookup_empty.
      repeat case_decide; subst; try discriminate; reflexivity.
    + right. exists t. split; reflexivity.
Qed.

Lemma single_token_rejected_witness :
  output (parseInput "500kbps")
    = "Error: Invalid input. Provide at least two parameters to calculate the missing value."
  \/ exists token,
       tokens "500kbps" = [token] /\
       output (parseInput "500kbps") = "Error: Unknown tokens: " +:+ token.
Proof.
  apply (single_token_rejected "500kbps"). vm_compute. lia.
Defined.

End NormalFormFacts.

Section OrderFacts.
Import Lib Outcome Text.

Lemma parseInputString_snoc (line w : string) :
  tokens w = [w] ->
  parseInputString (line +:+ " " +:+ w)
  = classifyToken (parseInputString line) w.
Proof.
  intros Hw. unfold parseInputString.
  now rewrite tokens_app, Hw, fold_left_app.
Qed.




Lemma calculateDuration_refiners f b res fr :
  calculateDuration f b res fr = calculateDuration f b None None.
Proof. reflexivity. Qed.

Lemma calculateBitRate_throws_same f seconds res fr res' fr' e :
  calculateBitRate f seconds res fr = Throw e ->
  calculateBitRate f seconds res' fr' = Throw e.
Proof.
  unfold calculateBitRate.
  destruct (bind (receiver f) _) as [size|e']; cbn [bind];
    [discriminate|trivial].
Qed.

Local Ltac same_output :=
  left; cbn [bind];
  repeat match goal with
         | |- context [if ?c then _ else _] => destruct c; cbn [bind]
         | |- context [bind ?m _] => destruct m; cbn [bind]
         end;
  reflexivity.

(** X14. Resolution and frame rate change the bit-rate result only. Adding
    a resolution or frame-rate token to a line leaves the output as it
    is, unless that output is a bit rate. *)
Theorem refiners_only_for_bit_rate (line w : string) :
  tokens w = [w] ->
  classify regexes w = Some "resolution" \/
  classify regexes w = Some "frameRate" ->
  output (parseInput (line +:+ " " +:+ w)) = output (parseInput line) \/
  exists body, output (parseInput line) = "Bit rate: " +:+ body.
Proof.
  intros Hw Hk. unfold parseInput, parseInputTry.
  rewrite (parseInputString_snoc line w Hw). unfold classifyToken.
  assert (Hparse : exists k,
             classify regexes w = Some k /\ k <> "bitRate" /\
             k <> "duration" /\ k <> "fileSize").
  { destruct Hk as [Hk|Hk]; eexists; (split; [exact Hk|]);
      repeat split; discriminate. }
  destruct Hparse as (k & -> & Hb & Hd & Hf). cbn [parsed unknownTokens].
  unfold requiredKeys, hasKey. cbn [List.filter].
  rewrite !(lookup_insert_ne _ k "bitRate"), !(lookup_insert_ne _ k "duration"),
    !(lookup_insert_ne _ k "fileSize") by assumption.
  destruct (0 <? length _)%nat; [same_output|].
  destruct (negb (length _ =? 1)%nat); [same_output|].
  rewrite !(calculateDuration_refiners _ _ (_ !! "resolution") (_ !! "frameRate")).
  destruct (parsed (parseInputString line) !! "duration") as [d|];
    [|same_output].
  destruct (negb (truthyNumber (parseDuration d))); cbn [bind];
    [same_output|].
  destruct (parseDuration d) as [seconds|]; [|same_output].
  destruct (negb (JsNumber.truthy seconds)); [same_output|].
  destruct (negb (JsString.truthy _)); [|same_output].
  destruct (calculateBitRate _ seconds
              (parsed (parseInputString line) !! "resolution")
              (parsed (parseInputString line) !! "frameRate")) as [body|e] eqn:E.
  - right. exists body. reflexivity.
  - left. now rewrite (calculateBitRate_throws_same _ _ _ _ _ _ _ E).
Qed.

Lemma refiners_only_for_bit_rate_witness :
  output (parseInput ("700MB 5Mbps" +:+ " " +:+ "1920x1080"))
    = output (parseInput "700MB 5Mbps") \/
  exists body, output (parseInput "700MB 5Mbps") = "Bit rate: " +:+ body.
Proof.
  apply (refiners_only_for_bit_rate "700MB 5Mbps" "1920x1080").
  - reflexivity.
  - left. reflexivity.
Defined.

End OrderFacts.

Section DefensiveFacts.
Import RegExp Lib Outcome Text.

Lemma matchDigits_mono (k k' : cont) (s : string) :
  (forall p s' c c', is_Some (k p s' c) -> is_Some (k' p s' c')) ->
  forall pos c c',
    is_Some (matchDigits k pos s c) -> is_Some (matchDigits k' pos s c').
Proof.
  intros Hk. induction s as [|a s IH]; intros pos c c'; cbn [matchDigits];
    [trivial|].
  destruct (JsString.isDigit a); [|trivial].
  destruct (matchDigits k (S pos) s c) eqn:E.
  - intros _. destruct (IH (S pos) c c') as [x ->]; [rewrite E|]; eauto.
  - intros H. destruct (matchDigits k' (S pos) s c'); [eauto|].
    eapply Hk, H.
Qed.

(** Whether a pattern matches does not depend on its capturing groups. *)
Lemma ungroup_success ic (r : regex) :
  forall (k k' : cont),
    (forall p s c c', is_Some (k p s c) -> is_Some (k' p s c')) ->
    forall pos s c c',
      is_Some (rmatch ic (ungroup r) k pos s c) ->
      is_Some (rmatch ic r k' pos s c').
Proof.
  induction r as [| |l|cs| |r1 IH1 r2 IH2|r1 IH1 r2 IH2|r1 IH1|i r1 IH1];
    intros k k' Hk pos s c c'; cbn [ungroup rmatch].
  - destruct (Nat.eqb pos 0); [apply Hk|trivial].
  - destruct (JsString.isEmpty s); [apply Hk|trivial].
  - destruct (matchLit ic l s); [apply Hk|trivial].
  - destruct s as [|a s]; [trivial|].
    destruct (inClass ic cs a); [apply Hk|trivial].
  - now apply matchDigits_mono.
  - apply IH1. intros p s' c1 c2. now apply IH2.
  - destruct (rmatch ic (ungroup r1) k pos s c) eqn:E.
    + intros _. destruct (IH1 k k' Hk pos s c c') as [x ->]; [rewrite E|]; eauto.
    + intros H. destruct (rmatch ic r1 k' pos s c'); [eauto|].
      eapply IH2; eassumption.
  - destruct (rmatch ic (ungroup r1) k pos s c) eqn:E.
    + intros _. destruct (IH1 k k' Hk pos s c c') as [x ->]; [rewrite E|]; eauto.
    + intros H. destruct (rmatch ic r1 k' pos s c'); [eauto|].
      eapply Hk, H.
  - apply IH1. intros p s' c1 c2. apply Hk.
Qed.

(** Every entry of [parsed] is filed under the key of its token. *)
Lemma parsed_classified (line key v : string) :
  parsed (parseInputString line) !! key = Some v ->
  classify regexes v = Some key.
Proof.
  rewrite parsed_spec. intros H. apply last_Some in H as [l' H].
  assert (Hin : In v (List.filter (matches key) (tokens line))).
  { rewrite H. apply in_or_app. right. now left. }
  apply filter_In in Hin as [_ Hm]. unfold matches in Hm.
  destruct (classify regexes v) as [k|]; [|discriminate].
  apply String.eqb_eq in Hm. now subst.
Qed.

Lemma fileSize_token_accepted (v : string) :
  classify regexes v = Some "fileSize" -> exists x, parseFileSize v = Ok x.
Proof.
  unfold regexes. cbn [classify existsb seqs]. unfold test at 1.
  rewrite exec_anchored.
  destruct (rmatch false _ _ 0 v ∅) as [m|] eqn:E.
  2:{ cbn [orb].
      repeat match goal with
             | |- context [if ?b then _ else _] => destruct b
             end; discriminate. }
  intros _. rewrite rmatch_Seq in E. unfold decimal in E.
  rewrite rmatch_Seq, rmatch_Digits in E.
  pose proof (parseFileSize_outcome v) as H.
  destruct (parseFileSize v) as [x|e]; [eauto|]. destruct H as [_ H].
  destruct v as [|a v]; [discriminate E|]. cbn [matchDigits] in E.
  cbn [hasDigit] in H. destruct (JsString.isDigit a); discriminate.
Qed.

Lemma bitRate_token_matched (v : string) :
  classify regexes v = Some "bitRate" ->
  exists m, exec false rateRegex v = Some m.
Proof.
  unfold regexes. cbn [classify existsb].
  repeat match goal with
         | |- context [if ?b then _ else _] =>
             destruct b eqn:?; try discriminate
         end.
  intros _.
  match goal with H : _ || false = true |- _ => rewrite orb_false_r in H; rename H into Ht end.
  unfold test in Ht. cbn [seqs] in Ht. rewrite exec_anchored in Ht.
  unfold rateRegex. cbn [seqs]. rewrite exec_anchored.
  apply (ungroup_success false
           (Seq (Grp 1 decimal)
              (Seq (Grp 2 (alts [Lit "bps"; Lit "kbps"; Lit "Mbps"; Lit "Gbps";
                                Lit "k"; Lit "M"; Lit "G"])) Eol))
           (fun p _ c => Some (<[0%nat := String.substring 0 (p - 0) v]> c))
           (fun p _ c => Some (<[0%nat := String.substring 0 (p - 0) v]> c))
           (fun p s c c' _ => ltac:(eauto)) 0%nat v ∅ ∅).
  destruct (rmatch false _ _ 0 v ∅) eqn:E in Ht; [|discriminate Ht].
  cbn [ungroup alts]. unfold decimal. cbn [ungroup].
  unfold decimal in E. cbn [alts] in E. rewrite E. eauto.
Qed.

(** Where the errors of [parseInput] are thrown. *)
Lemma parseInputTry_throws (line : string) (e : JsError) :
  parseInputTry line = Throw e ->
  (exists l, e = Error ("Unknown tokens: " +:+ l)) \/
  e = Error "Invalid input. Provide at least two parameters to calculate the missing value." \/
  (exists d, e = Error ("Invalid duration format " +:+ d)) \/
  e = Error "All values were provided. Nothing to calculate." \/
  (exists f, parsed (parseInputString line) !! "fileSize" = Some f /\
             parseFileSize f = Throw e) \/
  (exists b, parsed (parseInputString line) !! "bitRate" = Some b /\
             parseBitRate b = Throw e) \/
  (exists msg, e = TypeError msg).
Proof.
  unfold parseInputTry.
  destruct (0 <? length _)%nat; [intros [= <-]; left; eauto|].
  destruct (negb (length _ =? 1)%nat); [intros [= <-]; right; left; eauto|].
  assert (Hdur : forall res fr,
    calculateDuration (parsed (parseInputString line) !! "fileSize")
      (parsed (parseInputString line) !! "bitRate") res fr = Throw e ->
    (exists f, parsed (parseInputString line) !! "fileSize" = Some f /\
               parseFileSize f = Throw e) \/
    (exists b, parsed (parseInputString line) !! "bitRate" = Some b /\
               parseBitRate b = Throw e) \/
    (exists msg, e = TypeError msg)).
  { intros res fr. unfold calculateDuration, receiver.
    destruct (parsed (parseInputString line) !! "fileSize") as [f|] eqn:Hf;
      cbn [bind]; [|intros [= <-]; right; right; eauto].
    destruct (parseFileSize f) eqn:Ef; cbn [bind];
      [|intros [= <-]; left; eauto].
    destruct (parsed (parseInputString line) !! "bitRate") as [b|] eqn:Hb;
      cbn [bind]; [|intros [= <-]; right; right; eauto].
    destruct (parseBitRate b) eqn:Eb; cbn [bind];
      [|intros [= <-]; right; left; eauto].
    repeat match goal with
           | |- context [if ?c then _ else _] => destruct c
           end; discriminate. }
  destruct (parsed (parseInputString line) !! "duration") as [d|]; cbn [bind].
  2:{ destruct (calculateDuration _ _ _ _) eqn:E; cbn [bind]; [discriminate|].
      intros [= <-]. do 4 right. eapply Hdur, E. }
  destruct (negb (truthyNumber (parseDuration d))); cbn [bind];
    [intros [= <-]; right; right; left; eauto|].
  destruct (parseDuration d) as [seconds|].
  2:{ destruct (calculateDuration _ _ _ _) eqn:E; cbn [bind]; [discriminate|].
      intros [= <-]. do 4 right. eapply Hdur, E. }
  destruct (negb (JsNumber.truthy seconds)).
  { destruct (calculateDuration _ _ _ _) eqn:E; cbn [bind]; [discriminate|].
    intros [= <-]. do 4 right. eapply Hdur, E. }
  destruct (negb (JsString.truthy _)).
  { unfold calculateBitRate, receiver.
    destruct (parsed (parseInputString line) !! "fileSize") as [f|] eqn:Hf;
      cbn [bind].
    - destruct (parseFileSize f) eqn:E; cbn [bind]; [discriminate|].
      intros [= <-]. do 4 right. left. eauto.
    - intros [= <-]. do 6 right. eauto. }
  destruct (negb (JsString.truthy _)).
  { unfold calculateFileSize, receiver.
    destruct (parsed (parseInputString line) !! "bitRate") as [b|] eqn:Hb;
      cbn [bind].
    - destruct (parseBitRate b) eqn:E; cbn [bind]; [discriminate|].
      intros [= <-]. do 5 right. left. eauto.
    - intros [= <-]. do 6 right. eauto. }
  intros [= <-]. do 3 right. left. reflexivity.
Qed.

Lemma classify_key (table : list (string * list regex)) (token key : string) :
  classify table token = Some key -> In key (map fst table).
Proof.
  induction table as [|[k ps] table IH]; cbn [classify map fst]; [discriminate|].
  destruct (existsb _ ps); [intros [= <-]; now left|]. intros H. right. now apply IH.
Qed.

(** X10. The entries of [parsed]: each value is a token of the line,
    filed by the patterns under its key, one of the five kinds. *)
Theorem parsed_entries (line key v : string) :
  parsed (parseInputString line) !! key = Some v ->
  In v (tokens line) /\
  classify regexes v = Some key /\
  In key ["fileSize"; "duration"; "resolution"; "frameRate"; "bitRate"].
Proof.
  intros H. split; [eapply parsed_token, H|].
  pose proof (parsed_classified _ _ _ H) as Hc. split; [exact Hc|].
  exact (classify_key regexes v key Hc).
Qed.

Lemma parsed_entries_witness :
  In "2h" (tokens "700MB 1h 2h") /\
  classify regexes "2h" = Some "duration" /\
  In "duration" ["fileSize"; "duration"; "resolution"; "frameRate"; "bitRate"].
Proof.
  apply (parsed_entries "700MB 1h 2h" "duration" "2h"). vm_compute. reflexivity.
Defined.

(** X1. The forms of the output of [parseInput]: the report of the
    unknown tokens, of the parameter count, of an invalid duration or of
    the unit bps, or one of the three results. The other errors of the
    program ("All values were provided. Nothing to calculate.", "Invalid
    file size format.", "Invalid bit rate format.") are never output. *)
Theorem parseInput_output_forms (line : string) :
  (exists unknown,
      output (parseInput line) = "Error: Unknown tokens: " +:+ unknown) \/
  output (parseInput line)
    = "Error: Invalid input. Provide at least two parameters to calculate the missing value." \/
  (exists d, output (parseInput line) = "Error: Invalid duration format " +:+ d) \/
  output (parseInput line) = "Error: Unsupported bit rate unit." \/
  Success (output (parseInput line)).
Proof.
  pose proof (parseInputTry_outcome line) as Ho. unfold parseInput.
  destruct (parseInputTry line) as [r|e] eqn:E.
  { destruct Ho as [_ Hs]. do 4 right. exact Hs. }
  destruct Ho as (msg & -> & Hf).
  apply parseInputTry_throws in E
    as [[l E]|[E|[[d E]|[E|[(f & Hf' & E)|[(b & Hb & E)|[m E]]]]]]].
  - injection E as ->. left. exists l. reflexivity.
  - injection E as ->. right; left. reflexivity.
  - injection E as ->. right; right; left. exists d. reflexivity.
  - injection E as ->. inversion Hf.
  - apply parsed_classified, fileSize_token_accepted in Hf' as [x Hx].
    congruence.
  - pose proof Hb as Hc.
    apply parsed_classified, bitRate_token_matched in Hc as [m Hm].
    pose proof E as E'. apply parseBitRate_throws in E' as [E'|E'].
    + unfold parseBitRate in E. rewrite Hm in E.
      destruct (rateRegex_unit _ _ Hm) as [u Hu]. rewrite Hu in E.
      cbn [receiver bind] in E.
      repeat match type of E with
             | context [if ?c then _ else _] => destruct c
             end; try discriminate E.
      injection E as E. injection E' as E'. congruence.
    + injection E' as ->. do 3 right. left. reflexivity.
  - discriminate E.
Qed.

End DefensiveFacts.

Section ShellFacts.
Import App.

(** X15. What a submitted line does to the history. With at most 100
    entries the result of [parseInput] is appended; with more than 100 the
    history is cut to its last 100 entries and the result of the
    submitted line is not recorded, because the handler appends to, and
    [purgeOldHistory] cuts, the history of the same render. In both cases
    the input box is emptied and no entry is selected. *)
Theorem submit_appends_or_purges (s : State) :
  JsString.startsWith "/clear" (input s) = false ->
  JsString.startsWith "/help" (input s) = false ->
  handleInputSubmit s =
    {| history :=
         if (length (history s) <=? maxHistoryItems)%nat
         then history s ++ [Lib.parseInput (input s)]
         else skipn (length (history s) - maxHistoryItems) (history s);
       input := EmptyString;
       historyIndex := None |}.
Proof.
  intros Hc Hh. unfold handleInputSubmit. rewrite Hc, Hh.
  unfold purgeOldHistory. cbn [history setHistory].
  destruct (Nat.ltb_spec maxHistoryItems (length (history s))) as [Hlt|Hge].
  - destruct (Nat.leb_spec (length (history s)) maxHistoryItems); [lia|].
    destruct (historyIndex s) as [i|]; [|reflexivity].
    destruct (i <? _)%Z; [reflexivity|]. destruct (_ <=? i)%Z; reflexivity.
  - destruct (Nat.leb_spec (length (history s)) maxHistoryItems); [|lia].
    destruct (Lib.parseInput (input s)). reflexivity.
Qed.

Lemma submit_appends_or_purges_witness :
  handleInputSubmit
    {| history := []; input := "700MB 2h"; historyIndex := Some 3%Z |}
  = {| history := [ {| Lib.input := "700MB 2h";
                       Lib.output := "Bit rate: 778 kbps" |} ];
       input := EmptyString;
       historyIndex := None |}.
Proof.
  rewrite (submit_appends_or_purges
             {| history := []; input := "700MB 2h"; historyIndex := Some 3%Z |});
    [|reflexivity|reflexivity].
  vm_compute. reflexivity.
Defined.

(** X16. The history never holds more than 101 entries after a line other
    than /help is submitted, whatever it held before. *)
Theorem history_bounded (s : State) :
  JsString.startsWith "/help" (input s) = false ->
  (length (history (handleInputSubmit s)) <= S maxHistoryItems)%nat.
Proof.
  intros Hh. unfold handleInputSubmit. rewrite Hh.
  destruct (JsString.startsWith "/clear" (input s)); [cbn; lia|].
  unfold purgeOldHistory. cbn [history setHistory].
  destruct (Nat.ltb_spec maxHistoryItems (length (history s))) as [Hlt|Hge].
  - assert (Hlen : length (skipn (length (history s) - maxHistoryItems)
                             (history s)) = maxHistoryItems)
      by (rewrite length_skipn; lia).
    destruct (historyIndex s) as [i|]; [|cbn [history setHistory setInput setHistoryIndex]; lia].
    destruct (i <? _)%Z; [cbn [history setHistory setInput setHistoryIndex]; lia|].
    destruct (_ <=? i)%Z; cbn [history setHistory setInput setHistoryIndex]; lia.
  - cbn [history setHistory setInput setHistoryIndex].
    rewrite length_app. cbn [length]. lia.
Qed.

Lemma history_bounded_witness :
  (length (history (handleInputSubmit
                      {| history := []; input := "1h 2M";
                         historyIndex := None |})) <= S maxHistoryItems)%nat.
Proof.
  apply (history_bounded {| history := []; input := "1h 2M";
                            historyIndex := None |}).
  reflexivity.
Defined.

End ShellFacts.

Section NavigationFacts.
Import App.
Local Open Scope Z_scope.

(** X17. Pressing ArrowUp [n + 1] times at a fresh prompt selects the
    [n + 1]-th most recent entry and shows its input; at the oldest entry
    the key does nothing more. *)
Theorem arrow_up_recalls (s : State) (n : nat) :
  historyIndex s = None ->
  history s <> [] ->
  let s' := Nat.iter (S n) (handleKeyDown "ArrowUp") s in
  let i := Z.max 0 (Z.of_nat (length (history s)) - 1 - Z.of_nat n) in
  history s' = history s /\
  historyIndex s' = Some i /\
  input s' = inputAt (history s) i.
Proof.
  intros Hi Hne. cbv zeta.
  assert (Hlen : 0 < Z.of_nat (length (history s))).
  { destruct (history s); [congruence|cbn [length]; lia]. }
  induction n as [|n IH].
  - change (Nat.iter 1 (handleKeyDown "ArrowUp") s)
      with (handleKeyDown "ArrowUp" s).
    unfold handleKeyDown. cbn [String.eqb Ascii.eqb Bool.eqb].
    rewrite Hi. cbn [history input historyIndex setInput setHistoryIndex].
    replace (Z.max 0 (Z.of_nat (length (history s)) - 1 - Z.of_nat 0))
      with (Z.of_nat (length (history s)) - 1) by lia.
    auto.
  - change (Nat.iter (S (S n)) (handleKeyDown "ArrowUp") s)
      with (handleKeyDown "ArrowUp"
              (Nat.iter (S n) (handleKeyDown "ArrowUp") s)).
    destruct IH as (Hh & Hx & Hin).
    set (t := Nat.iter (S n) (handleKeyDown "ArrowUp") s) in *.
    unfold handleKeyDown. cbn [String.eqb Ascii.eqb Bool.eqb].
    rewrite Hx, Hh.
    destruct (Z.ltb_spec 0 (Z.max 0 (Z.of_nat (length (history s)) - 1 - Z.of_nat n)))
      as [Hpos|Hzero].
    + cbn [history input historyIndex setInput setHistoryIndex].
      replace (Z.max 0 (Z.of_nat (length (history s)) - 1 - Z.of_nat (S n)))
        with (Z.max 0 (Z.of_nat (length (history s)) - 1 - Z.of_nat n) - 1)
        by lia.
      auto.
    + replace (Z.max 0 (Z.of_nat (length (history s)) - 1 - Z.of_nat (S n)))
        with (Z.max 0 (Z.of_nat (length (history s)) - 1 - Z.of_nat n))
        by lia.
      auto.
Qed.

Lemma arrow_up_recalls_witness :
  let s := {| history := [ {| Lib.input := "1h 2M"; Lib.output := "a" |};
                           {| Lib.input := "700MB 2h"; Lib.output := "b" |} ];
              input := "typed"; historyIndex := None |} in
  let s' := Nat.iter 2 (handleKeyDown "ArrowUp") s in
  history s' = history s /\
  historyIndex s' = Some 0 /\
  input s' = "1h 2M"%string.
Proof.
  cbv zeta.
  apply (arrow_up_recalls
           {| history := [ {| Lib.input := "1h 2M"; Lib.output := "a" |};
                           {| Lib.input := "700MB 2h"; Lib.output := "b" |} ];
              input := "typed"; historyIndex := None |} 1);
    [reflexivity|discriminate].
Defined.

(** X18. ArrowDown undoes ArrowUp. From a selected entry other than the
    oldest, ArrowUp followed by ArrowDown selects the same entry again and
    shows its input. *)
Theorem arrow_down_undoes_up (s : State) (i : Z) :
  historyIndex s = Some i ->
  0 < i < Z.of_nat (length (history s)) ->
  handleKeyDown "ArrowDown" (handleKeyDown "ArrowUp" s)
  = {| history := history s;
       input := inputAt (history s) i;
       historyIndex := Some i |}.
Proof.
  intros Hi [Hpos Hlt]. unfold handleKeyDown.
  cbn [String.eqb Ascii.eqb Bool.eqb]. rewrite Hi.
  destruct (Z.ltb_spec 0 i); [|lia].
  cbn [history input historyIndex setInput setHistoryIndex].
  destruct (Z.ltb_spec (i - 1) (Z.of_nat (length (history s)) - 1)); [|lia].
  unfold setInput, setHistoryIndex. cbn [history input historyIndex].
  now replace (i - 1 + 1) with i by lia.
Qed.

Lemma arrow_down_undoes_up_witness :
  handleKeyDown "ArrowDown"
    (handleKeyDown "ArrowUp"
       {| history := [ {| Lib.input := "1h 2M"; Lib.output := "a" |};
                       {| Lib.input := "700MB 2h"; Lib.output := "b" |} ];
          input := "typed"; historyIndex := Some 1 |})
  = {| history := [ {| Lib.input := "1h 2M"; Lib.output := "a" |};
                    {| Lib.input := "700MB 2h"; Lib.output := "b" |} ];
       input := "700MB 2h"; historyIndex := Some 1 |}.
Proof.
  apply (arrow_down_undoes_up
           {| history := [ {| Lib.input := "1h 2M"; Lib.output := "a" |};
                           {| Lib.input := "700MB 2h"; Lib.output := "b" |} ];
              input := "typed"; historyIndex := Some 1 |} 1);
    [reflexivity|cbn; lia].
Defined.

(** X19. The keys keep the selection within the history. A key press leaves
    the history as it is; a selected index that was between -1 and the
    last index stays so; and a key press that changes the state shows the
    input of the selected entry, or an empty box when none is selected. *)
Theorem keys_keep_selection (key : string) (s : State) :
  (forall i, historyIndex s = Some i ->
             -1 <= i < Z.of_nat (length (history s))) ->
  let s' := handleKeyDown key s in
  history s' = history s /\
  (forall i, historyIndex s' = Some i ->
             -1 <= i < Z.of_nat (length (history s'))) /\
  (s' = s \/
   input s' = match historyIndex s' with
              | Some i => inputAt (history s') i
              | None => EmptyString
              end).
Proof.
  intros Hv. cbv zeta. unfold handleKeyDown.
  destruct (String.eqb key "ArrowUp"); [|destruct (String.eqb key "ArrowDown")].
  - destruct (historyIndex s) as [i|] eqn:Hi.
    + specialize (Hv i eq_refl). destruct (Z.ltb_spec 0 i).
      * cbn [history input historyIndex setInput setHistoryIndex].
        split; [reflexivity|]. split; [|right; reflexivity].
        intros j [= <-]. lia.
      * split; [reflexivity|]. split; [|left; reflexivity].
        rewrite Hi. intros j [= <-]. lia.
    + cbn [history input historyIndex setInput setHistoryIndex].
      split; [reflexivity|]. split; [|right; reflexivity].
      intros j [= <-]. lia.
  - destruct (historyIndex s) as [i|] eqn:Hi.
    + specialize (Hv i eq_refl).
      destruct (Z.ltb_spec i (Z.of_nat (length (history s)) - 1));
        cbn [history input historyIndex setInput setHistoryIndex];
        (split; [reflexivity|]); (split; [|right; reflexivity]).
      * intros j [= <-]. lia.
      * discriminate.
    + cbn [history input historyIndex setInput setHistoryIndex].
      split; [reflexivity|]. split; [discriminate|right; reflexivity].
  - split; [reflexivity|]. split; [exact Hv|left; reflexivity].
Qed.

Lemma keys_keep_selection_witness :
  let s := {| history := [ {| Lib.input := "1h 2M"; Lib.output := "a" |} ];
              input := "typed"; historyIndex := Some 0 |} in
  let s' := handleKeyDown "ArrowDown" s in
  history s' = history s /\
  (forall i, historyIndex s' = Some i ->
             -1 <= i < Z.of_nat (length (history s'))) /\
  (s' = s \/
   input s' = match historyIndex s' with
              | Some i => inputAt (history s') i
              | None => EmptyString
              end).
Proof.
  apply (keys_keep_selection "ArrowDown"
           {| history := [ {| Lib.input := "1h 2M"; Lib.output := "a" |} ];
              input := "typed"; historyIndex := Some 0 |}).
  intros i [= <-]. cbn. lia.
Defined.

End NavigationFacts.
